(** * supercutter: keyword scan of subtitle tracks and EDL synthesis

    A shallow embedding of [supercutter.py]: the caption matcher
    ([find_keywords]), the corpus scanner ([find_all_keywords]), the
    timecode codec ([timecode]), the edit-list writer ([write_edl]) and the
    last stage of [main], together with the properties of the specification
    that concern them.

    Modelling conventions.
    - A Python [str] is a [string] whose characters are the code points
      below 256; [lower] and [strip] follow Python on that range.
    - A Python [float] is an IEEE 754 binary64 value, a [spec_float] of
      the Standard Library with precision 53 and maximal exponent 1024;
      arithmetic is round-to-nearest-even as computed by [SFadd], [SFsub]
      and [SFmul].  A float that Python can hold satisfies [is_float].
    - A Python [int] is a [Z].
    - A generator is the list of the values it yields, in order.
    - Exceptions are values of [exn], carried by [outcome]; the text file
      handed to [write_edl] is the string written so far.
    - The caption-track parser, the directory listing and the file system
      are parameters. *)

From Stdlib Require Import ZArith List String Ascii Bool Lia SpecFloat
  Permutation.
Import ListNotations.

Local Open Scope string_scope.
Local Open Scope Z_scope.

(** ** Python strings *)

Module PyStr.

(** The line feed, which Rocq string literals cannot escape. *)
Definition LF : ascii := ascii_of_nat 10.
Definition nl : string := String LF "".

(** [str.isspace] on one code point below 256. *)
Definition isspace (c : ascii) : bool :=
  let n := N_of_ascii c in
  ((9 <=? n) && (n <=? 13) || (28 <=? n) && (n <=? 32)
   || (n =? 133) || (n =? 160))%N.

(** [str.lower] on one code point below 256: the ASCII capitals and the
    Latin-1 capitals (all of 192..222 but the multiplication sign). *)
Definition lower_char (c : ascii) : ascii :=
  let n := N_of_ascii c in
  if ((65 <=? n) && (n <=? 90)
      || (192 <=? n) && (n <=? 222) && negb (n =? 215))%N
  then ascii_of_N (n + 32) else c.

Fixpoint lower (s : string) : string :=
  match s with
  | EmptyString => EmptyString
  | String c s' => String (lower_char c) (lower s')
  end.

Fixpoint lstrip (s : string) : string :=
  match s with
  | EmptyString => EmptyString
  | String c s' => if isspace c then lstrip s' else s
  end.

Fixpoint rstrip (s : string) : string :=
  match s with
  | EmptyString => EmptyString
  | String c s' =>
      match rstrip s' with
      | EmptyString => if isspace c then EmptyString else String c EmptyString
      | r => String c r
      end
  end.

(** [s.strip()] *)
Definition strip (s : string) : string := rstrip (lstrip s).

(** [s.split(sep)] for a one-character separator: never the empty list. *)
Fixpoint split (sep : ascii) (s : string) : list string :=
  match s with
  | EmptyString => [EmptyString]
  | String c s' =>
      if Ascii.eqb c sep then EmptyString :: split sep s'
      else match split sep s' with
           | l :: ls => String c l :: ls
           | [] => [String c EmptyString]
           end
  end.

Fixpoint startswith (w s : string) : bool :=
  match w, s with
  | EmptyString, _ => true
  | String a w', String b s' => Ascii.eqb a b && startswith w' s'
  | String _ _, EmptyString => false
  end.

(** [w in s]: substring containment. *)
Fixpoint contains (w s : string) : bool :=
  startswith w s ||
  match s with
  | EmptyString => false
  | String _ s' => contains w s'
  end.

(** [sep.join(xs)] *)
Fixpoint join (sep : string) (xs : list string) : string :=
  match xs with
  | [] => EmptyString
  | [x] => x
  | x :: rest => x ++ sep ++ join sep rest
  end.

End PyStr.

(** ** Python floats as binary64 values *)

Definition float : Type := spec_float.

Definition prec : Z := 53.
Definition emax : Z := 1024.

Definition fadd : float -> float -> float := SFadd prec emax.
Definition fsub : float -> float -> float := SFsub prec emax.
Definition fmul : float -> float -> float := SFmul prec emax.
Definition fltb : float -> float -> bool := SFltb.
Definition fleb : float -> float -> bool := SFleb.

(** The float nearest to an integer, as in the literal [30.0]. *)
Definition float_of_Z (z : Z) : float := binary_normalize prec emax z 0 false.

(** What every Python float satisfies: its mantissa is canonical. *)
Definition is_float (x : float) : bool := valid_binary prec emax x.

(** ** The data model *)

(** One cue of a caption track, as [webvtt] exposes it. *)
Record Caption := { text : string; _start : float; _end : float }.

(** [Keyword = namedtuple("Keyword", "word start end")] *)
Record Keyword := { word : string; start : float; end_ : float }.

(** [Video = namedtuple("Video", "id vttpath vidpath fps hits")] *)
Record Video := {
  id : string;
  vttpath : string;
  vidpath : string;
  fps : float;
  hits : list Keyword
}.

(** An entry of [os.scandir]. *)
Record DirEntry := { name : string; path : string }.

(** ** The matcher: [find_keywords] *)

Section Matcher.

(** The caption-track parser, an external collaborator: the cues of the
    file at a path. *)
Variable webvtt_read : string -> list Caption.

(** [caption.text.strip().lower().split("\n")] *)
Definition lines_of (caption : Caption) : list string :=
  PyStr.split PyStr.LF (PyStr.lower (PyStr.strip (text caption))).

(** The loop over [keywords] for one accepted line: each keyword found
    in the line yields a hit. *)
Definition scan_words (keywords : list string) (caption : Caption)
    (line : string) (yielded : list Keyword) : list Keyword :=
  fold_left
    (fun ys w =>
       if PyStr.contains w line
       then (ys ++ [ {| word := w; start := _start caption;
                        end_ := _end caption |} ])%list
       else ys)
    keywords yielded.

(** The body of the loop over the lines of a cue.  The state is
    [prevline] and the hits yielded so far. *)
Definition scan_line (keywords : list string) (caption : Caption)
    (st : string * list Keyword) (line : string) : string * list Keyword :=
  let '(prevline, yielded) := st in
  if String.eqb line prevline then st
  else (line, scan_words keywords caption line yielded).

(** The body of the loop over the cues. *)
Definition scan_caption (keywords : list string)
    (st : string * list Keyword) (caption : Caption) : string * list Keyword :=
  fold_left (scan_line keywords caption) (lines_of caption) st.

(** The whole pass from a given [prevline]. *)
Definition scan_captions (keywords : list string) (prevline : string)
    (captions : list Caption) : string * list Keyword :=
  fold_left (scan_caption keywords) captions (prevline, []).

Definition find_keywords (vttfile : string) (keywords : list string)
    : list Keyword :=
  snd (scan_captions keywords "" (webvtt_read vttfile)).

End Matcher.

(** ** The scanner: [find_all_keywords] *)

Section Scanner.

(** The directory listing and the caption-track parser, both external. *)
Variable os_scandir : string -> list DirEntry.
Variable webvtt_read : string -> list Caption.

(** [entry.name.split("=")[0]] *)
Definition video_id_of (entry : DirEntry) : string :=
  hd "" (PyStr.split "=" (name entry)).

(** The body of the loop over the directory entries: [result.append]
    happens only under [if hits:]. *)
Definition scan_entry (keywords : list string) (result : list Video)
    (entry : DirEntry) : list Video :=
  let video_id := video_id_of entry in
  let hits := find_keywords webvtt_read (path entry) keywords in
  match hits with
  | [] => result
  | _ :: _ =>
      let vidpath := "" in
      let fps := S754_zero false in
      (result ++ [ {| id := video_id; vttpath := path entry;
                      vidpath := vidpath; fps := fps; hits := hits |} ])%list
  end.

Definition find_all_keywords (directory : string) (keywords : list string)
    : list Video :=
  fold_left (scan_entry keywords) (os_scandir directory) [].

End Scanner.

(** ** Exceptions *)

Inductive exn :=
| AssertionError (msg : string)
| ValueError
| OverflowError.

Inductive outcome (A : Type) :=
| Ok (a : A)
| Raise (e : exn).

Arguments Ok {A} a.
Arguments Raise {A} e.

Definition rbind {A B : Type} (r : outcome A) (k : A -> outcome B) : outcome B :=
  match r with
  | Ok a => k a
  | Raise e => Raise e
  end.

Declare Scope outcome_scope.
Delimit Scope outcome_scope with outcome.
Notation "x <- r ;; k" := (rbind r (fun x => k))
  (at level 61, r at next level, right associativity) : outcome_scope.

(** The calls of a generator expression, left to right; the first
    exception ends the iteration. *)
Fixpoint rmap {A B : Type} (f : A -> outcome B) (xs : list A)
    : outcome (list B) :=
  match xs with
  | [] => Ok []
  | x :: rest =>
      (y <- f x ;; ys <- rmap f rest ;; Ok (y :: ys))%outcome
  end.

(** ** Integers as text *)

Definition digit_char (d : Z) : ascii := ascii_of_N (48 + Z.to_N d).

Fixpoint dec_digits (fuel : nat) (n : Z) (acc : string) : string :=
  match fuel with
  | O => acc
  | S k =>
      let acc' := String (digit_char (n mod 10)) acc in
      if n <? 10 then acc' else dec_digits k (n / 10) acc'
  end.

(** The decimal digits of a natural number; a number has no more decimal
    digits than binary ones. *)
Definition str_nat (n : Z) : string :=
  dec_digits (S (Z.to_nat (Z.log2 n))) n "".

Fixpoint zeros (k : nat) : string :=
  match k with
  | O => ""
  | S k' => String "0" (zeros k')
  end.

(** [format(z, "0<width>")] and ["%0<width>d" % z]: the sign, then zeros
    up to the width, then the digits. *)
Definition format_int0 (width : nat) (z : Z) : string :=
  let sign := if z <? 0 then "-" else "" in
  let digits := str_nat (Z.abs z) in
  sign ++ zeros (width - String.length sign - String.length digits) ++ digits.

(** ["%d" % z] *)
Definition str_int (z : Z) : string := format_int0 0 z.

(** ** Float operations of [timecode] *)

Definition fzero : float := S754_zero false.
Definition fone : float := S754_finite false (2 ^ 52) (-52).

(** [int(x)]: truncation toward zero. *)
Definition int_of_float (x : float) : outcome Z :=
  match x with
  | S754_nan => Raise ValueError
  | S754_infinity _ => Raise OverflowError
  | S754_zero _ => Ok 0
  | S754_finite s m e => Ok (cond_Zopp s (Z.shiftl (Zpos m) e))
  end.

(** C's [fmod(x, 1.0)]: the fractional part, exact, with the sign of [x]. *)
Definition fmod1 (x : float) : float :=
  match x with
  | S754_nan | S754_infinity _ => S754_nan
  | S754_zero s => S754_zero s
  | S754_finite s m e =>
      match e with
      | Zneg p =>
          match Zpos m mod 2 ^ Zpos p with
          | Zpos r => binary_normalize prec emax (cond_Zopp s (Zpos r)) e s
          | _ => S754_zero s
          end
      | _ => S754_zero s
      end
  end.

(** [x % 1]: CPython's [float_rem] with divisor [1.0].  A zero remainder
    takes the sign of the divisor; a negative one is moved up by the
    divisor. *)
Definition float_rem1 (vx : float) : float :=
  let md := fmod1 vx in
  match md with
  | S754_zero _ => S754_zero false
  | S754_finite true _ _ => fadd md fone
  | _ => md
  end.

(** ** [datetime.timedelta] *)

Record timedelta := { days : Z; seconds : Z; microseconds : Z }.

(** [datetime.timedelta(seconds=n)] for an integer [n]. *)
Definition timedelta_of_seconds (n : Z) : outcome timedelta :=
  let d := n / 86400 in
  let s := n mod 86400 in
  if Z.abs d >? 999999999 then Raise OverflowError
  else Ok {| days := d; seconds := s; microseconds := 0 |}.

(** [str(td)] *)
Definition timedelta_str (td : timedelta) : string :=
  let mm := seconds td / 60 in
  let ss := seconds td mod 60 in
  let hh := mm / 60 in
  let mm := mm mod 60 in
  let s := str_int hh ++ ":" ++ format_int0 2 mm ++ ":" ++ format_int0 2 ss in
  let s :=
    if days td =? 0 then s
    else str_int (days td) ++ " day"
         ++ (if Z.abs (days td) =? 1 then "" else "s") ++ ", " ++ s in
  if microseconds td =? 0 then s
  else s ++ "." ++ format_int0 6 (microseconds td).

(** ** The timecode codec: [timecode] *)

(** [hms = datetime.timedelta(seconds=int(secs))] *)
Definition timecode_hms (secs : float) : outcome timedelta :=
  (n <- int_of_float secs ;; timedelta_of_seconds n)%outcome.

(** [frame = int((secs % 1) * fps)] *)
Definition timecode_frame (secs fps : float) : outcome Z :=
  int_of_float (fmul (float_rem1 secs) fps).

Definition timecode (secs fps : float) : outcome string :=
  (hms <- timecode_hms secs ;;
   frame <- timecode_frame secs fps ;;
   Ok (timedelta_str hms ++ ":" ++ format_int0 2 frame))%outcome.

(** ** Writing to a text file

    A computation that writes to the file [f] maps the text written so far
    to the text written afterwards and either a value or the exception
    that ended it. *)

Definition io (A : Type) : Type := string -> string * outcome A.

Definition io_ret {A : Type} (a : A) : io A := fun f => (f, Ok a).

Definition io_bind {A B : Type} (m : io A) (k : A -> io B) : io B :=
  fun f =>
    match m f with
    | (f', Ok a) => k a f'
    | (f', Raise e) => (f', Raise e)
    end.

(** [f.write(s)] *)
Definition io_write (s : string) : io unit := fun f => (f ++ s, Ok tt).

(** [assert b, msg] *)
Definition io_assert (b : bool) (msg : string) : io unit :=
  fun f => (f, if b then Ok tt else Raise (AssertionError msg)).

(** A pure computation that may raise. *)
Definition io_lift {A : Type} (r : outcome A) : io A := fun f => (f, r).

Declare Scope io_scope.
Delimit Scope io_scope with io.
Notation "x <- m ;; k" := (io_bind m (fun x => k))
  (at level 61, m at next level, right associativity) : io_scope.
Notation "m ;; k" := (io_bind m (fun _ => k))
  (at level 61, right associativity) : io_scope.

(** A [for] loop whose body updates the loop-carried variables [s]. *)
Fixpoint io_for {X S : Type} (body : S -> X -> io S) (xs : list X) (s : S)
    : io S :=
  match xs with
  | [] => io_ret s
  | x :: rest => (s' <- body s x ;; io_for body rest s')%io
  end.

(** ** The edit-list writer: [write_edl] *)

(** [os.path.split(p)[1]]: what follows the last slash. *)
Definition basename (p : string) : string := last (PyStr.split "/" p) "".

(** The two lines written for one edit. *)
Definition edit_lines (counter : Z) (codes path : string) : string :=
  format_int0 3 counter ++ "  AX       AA/V  C        " ++ codes ++ PyStr.nl
  ++ "* FROM CLIP NAME: " ++ path ++ PyStr.nl.

Definition limit_message : string := "EDL format only supports 999 edits".

(** The body of the loop over the hits of one video; the loop-carried
    variables are [counter] and [edit_time]. *)
Definition write_hit (video : Video) (path : string) (st : Z * float)
    (hit : Keyword) : io (Z * float) :=
  let '(counter, edit_time) := st in
  (io_assert (counter <? 1000) limit_message ;;
   let dt := fsub (end_ hit) (start hit) in
   codes <- io_lift (rmap (fun t => timecode t (fps video))
                       [start hit; end_ hit; edit_time; fadd edit_time dt]) ;;
   io_write (edit_lines counter (PyStr.join " " codes) path) ;;
   io_ret (counter + 1, fadd edit_time dt))%io.

(** The body of the loop over the videos. *)
Definition write_video (st : Z * float) (video : Video) : io (Z * float) :=
  let path := basename (vidpath video) in
  io_for (write_hit video path) (hits video) st.

Definition write_edl (result : list Video) (title : string) : io unit :=
  (io_write ("TITLE: " ++ title ++ PyStr.nl) ;;
   io_write ("FCM: DROP FRAME" ++ PyStr.nl) ;;
   io_write PyStr.nl ;;
   _ <- io_for write_video result (1, fzero) ;;
   io_ret tt)%io.

(** ** The last stage of [main]

    [with open(edl_path, "w") as f: write_edl(result, "Supercut", f)].
    Opening for writing empties the file; leaving the [with] block closes
    it, whether normally or by an exception, and what was written is then
    the content of the file. *)

Definition filesystem : Type := string -> option string.

Definition fs_store (fs : filesystem) (p content : string) : filesystem :=
  fun q => if String.eqb q p then Some content else fs q.

Definition generate_edl (fs : filesystem) (edl_path : string)
    (result : list Video) : filesystem * outcome unit :=
  let '(written, r) := write_edl result "Supercut" "" in
  (fs_store fs edl_path written, r).

(** ** The matcher in the words of the specification

    One piece of state, the most recently accepted physical line, runs
    through the lines of all cues; a line equal to it is skipped, any other
    line is accepted, becomes the state and is scanned. *)

(** The hits of one accepted line: one per keyword found in it, in the
    order of the keywords, with the timestamps of the enclosing cue. *)
Definition hits_of_line (keywords : list string) (caption : Caption)
    (line : string) : list Keyword :=
  map (fun w => {| word := w; start := _start caption; end_ := _end caption |})
      (filter (fun w => PyStr.contains w line) keywords).

Fixpoint accepted_lines (state : string) (ls : list string) : list string :=
  match ls with
  | [] => []
  | l :: rest =>
      if String.eqb l state then accepted_lines state rest
      else l :: accepted_lines l rest
  end.

Fixpoint state_after (state : string) (ls : list string) : string :=
  match ls with
  | [] => state
  | l :: rest =>
      if String.eqb l state then state_after state rest
      else state_after l rest
  end.

(** The hits of one cue met in a given state. *)
Definition cue_hits (keywords : list string) (state : string)
    (caption : Caption) : list Keyword :=
  flat_map (hits_of_line keywords caption)
           (accepted_lines state (lines_of caption)).

Fixpoint matcher_hits (keywords : list string) (state : string)
    (captions : list Caption) : list Keyword :=
  match captions with
  | [] => []
  | c :: rest =>
      (cue_hits keywords state c
       ++ matcher_hits keywords (state_after state (lines_of c)) rest)%list
  end.

(** The state in which a cue is met when it follows the cues [before]. *)
Definition state_before (before : list Caption) : string :=
  fold_left (fun st c => state_after st (lines_of c)) before "".

(** What the source yields while it processes one cue that follows the
    cues [before]. *)
Definition yielded_by (keywords : list string) (before : list Caption)
    (caption : Caption) : list Keyword :=
  snd (scan_caption keywords
         (fst (scan_captions keywords "" before), []) caption).

(** [w] occurs in [s]. *)
Definition occurs_in (w s : string) : Prop :=
  exists a b : string, s = a ++ w ++ b.

(** ** The edit list as a document

    The records that [write_edl] is to write, in order: the sequence
    number, the frame rate of the clip, the clip name, and the four instants
    in seconds. *)

Record Edit := {
  ed_seq : Z;
  ed_fps : float;
  ed_clip : string;
  ed_source_in : float;
  ed_source_out : float;
  ed_program_in : float;
  ed_program_out : float
}.

(** The hits in corpus order, each with its video. *)
Definition edl_jobs (result : list Video) : list (Video * Keyword) :=
  flat_map (fun v => map (pair v) (hits v)) result.

Definition hit_count (result : list Video) : nat :=
  List.length (edl_jobs result).

Fixpoint plan_from (counter : Z) (edit_time : float)
    (jobs : list (Video * Keyword)) : list Edit :=
  match jobs with
  | [] => []
  | (v, h) :: rest =>
      let dt := fsub (end_ h) (start h) in
      {| ed_seq := counter; ed_fps := fps v;
         ed_clip := basename (vidpath v);
         ed_source_in := start h; ed_source_out := end_ h;
         ed_program_in := edit_time;
         ed_program_out := fadd edit_time dt |}
      :: plan_from (counter + 1) (fadd edit_time dt) rest
  end.

Definition edl_plan (result : list Video) : list Edit :=
  plan_from 1 fzero (edl_jobs result).

Definition source_in_timecode (e : Edit) : outcome string :=
  timecode (ed_source_in e) (ed_fps e).
Definition source_out_timecode (e : Edit) : outcome string :=
  timecode (ed_source_out e) (ed_fps e).
Definition program_in_timecode (e : Edit) : outcome string :=
  timecode (ed_program_in e) (ed_fps e).
Definition program_out_timecode (e : Edit) : outcome string :=
  timecode (ed_program_out e) (ed_fps e).

(** The text of one record, when its four timecodes can be rendered. *)
Definition edit_text (e : Edit) : outcome string :=
  (a <- source_in_timecode e ;;
   b <- source_out_timecode e ;;
   c <- program_in_timecode e ;;
   d <- program_out_timecode e ;;
   Ok (edit_lines (ed_seq e) (PyStr.join " " [a; b; c; d]) (ed_clip e)))%outcome.

Definition edl_header (title : string) : string :=
  "TITLE: " ++ title ++ PyStr.nl ++ "FCM: DROP FRAME" ++ PyStr.nl ++ PyStr.nl.

(** Writing the records of a plan one after the other. *)
Fixpoint emit (plan : list Edit) : io unit :=
  match plan with
  | [] => io_ret tt
  | e :: rest =>
      (io_assert (ed_seq e <? 1000) limit_message ;;
       s <- io_lift (edit_text e) ;;
       io_write s ;;
       emit rest)%io
  end.

(** The sequence numbers [k], [k+1], ... of [n] records. *)
Fixpoint numbers_from (k : Z) (n : nat) : list Z :=
  match n with
  | O => []
  | S n' => k :: numbers_from (k + 1) n'
  end.

(** ** Shapes of timecodes *)

Definition is_digit (c : ascii) : bool :=
  let n := N_of_ascii c in ((48 <=? n) && (n <=? 57))%N.

Fixpoint all_digits (s : string) : bool :=
  match s with
  | EmptyString => true
  | String c s' => is_digit c && all_digits s'
  end.

Definition two_digits (s : string) : bool :=
  all_digits s && Nat.eqb (String.length s) 2.

(** [H:MM:SS]: hours of one digit or more, minutes and seconds of two. *)
Definition hms_shape (s : string) : bool :=
  match PyStr.split ":" s with
  | [h; m; sec] =>
      all_digits h && negb (String.eqb h "") && two_digits m && two_digits sec
  | _ => false
  end.

(** [H:MM:SS:FF]: as above, then a frame number padded to two digits. *)
Definition hmsf_shape (s : string) : bool :=
  match PyStr.split ":" s with
  | [h; m; sec; f] =>
      all_digits h && negb (String.eqb h "") && two_digits m && two_digits sec
      && all_digits f && Nat.leb 2 (String.length f)
  | _ => false
  end.

Definition day_component (s : string) : bool := PyStr.contains " day" s.

(** Hours, minutes and seconds of a number of whole seconds. *)
Definition hms_of_seconds (n : Z) : string :=
  str_int (n / 3600) ++ ":" ++ format_int0 2 ((n / 60) mod 60)
  ++ ":" ++ format_int0 2 (n mod 60).

(** The number that a string of decimal digits denotes. *)
Definition digit_value (c : ascii) : Z := Z.of_N (N_of_ascii c) - 48.

Fixpoint dec_value (s : string) : Z :=
  match s with
  | EmptyString => 0
  | String c s' =>
      digit_value c * 10 ^ Z.of_nat (String.length s') + dec_value s'
  end.

(** ** Float literals used in the examples *)

(** The float nearest to [m * 2 ^ e]. *)
Definition float_of_dyadic (m e : Z) : float :=
  binary_normalize prec emax m e false.

(** The float nearest to [a / b], the value of a short decimal literal. *)
Definition float_of_ratio (a b : Z) : float :=
  SFdiv prec emax (float_of_Z a) (float_of_Z b).

(** ** Instants that can be rendered *)

(** Neither an infinity nor a NaN. *)
Definition is_finite (x : float) : bool :=
  match x with
  | S754_zero _ | S754_finite _ _ _ => true
  | _ => false
  end.

(** Every character is a digit or a colon. *)
Fixpoint timecode_chars (s : string) : bool :=
  match s with
  | EmptyString => true
  | String c s' => (is_digit c || Ascii.eqb c ":") && timecode_chars s'
  end.

(** An instant that [timecode] renders at a given frame rate: a float from
    zero up to the largest duration of the library, and a finite positive
    frame rate. *)
Definition renderable (secs rate : float) : bool :=
  is_float secs && fleb fzero secs
  && fltb secs (float_of_Z (86400 * 1000000000))
  && is_float rate && is_finite rate && fltb fzero rate.


(** ** The scanner in the words of the specification *)

(** The record made for a directory entry, if its track has hits. *)
Definition record_of (read : string -> list Caption) (keywords : list string)
    (entry : DirEntry) : list Video :=
  match find_keywords read (path entry) keywords with
  | [] => []
  | hs => [ {| id := video_id_of entry; vttpath := path entry;
               vidpath := ""; fps := fzero; hits := hs |} ]
  end.

(** ** The edit list: cursor, texts and the statements examined *)

(** The loop-carried variables of [write_edl] after a run of jobs. *)
Fixpoint cursor_after (counter : Z) (edit_time : float)
    (jobs : list (Video * Keyword)) : Z * float :=
  match jobs with
  | [] => (counter, edit_time)
  | (_, h) :: rest =>
      cursor_after (counter + 1)
        (fadd edit_time (fsub (end_ h) (start h))) rest
  end.

(** The texts of the records of a plan, as far as they can be rendered. *)
Definition texts_of (plan : list Edit) : list string :=
  match rmap edit_text plan with
  | Ok texts => texts
  | Raise _ => []
  end.

(** The texts of several records, one after the other. *)
Definition text_of_all (texts : list string) : string :=
  fold_right String.append "" texts.

(** C5 as stated: a failed synthesis leaves at the output path what was
    there before, or nothing. *)
Definition leaves_no_partial_document (fs : filesystem) (edl_path : string)
    (result : list Video) : Prop :=
  forall fs' x,
    generate_edl fs edl_path result = (fs', Raise x) ->
    fs' edl_path = fs edl_path \/ fs' edl_path = None.

(** C3 as stated, on the records of a plan: the program-out timecode of a
    record is the program-in timecode of the next. *)
Definition contiguous_timecodes (plan : list Edit) : Prop :=
  forall i e1 e2,
    nth_error plan i = Some e1 -> nth_error plan (S i) = Some e2 ->
    program_out_timecode e1 = program_in_timecode e2.

(** C3 as stated, second half: a record of positive duration has distinct
    program-in and program-out timecodes. *)
Definition distinct_program_timecodes (plan : list Edit) : Prop :=
  forall e,
    In e plan ->
    fltb fzero (fsub (ed_source_out e) (ed_source_in e)) = true ->
    program_in_timecode e <> program_out_timecode e.

(** A file system with no file. *)
Definition no_files : filesystem := fun _ => None.

(** ** Further notions of the matcher *)

(** The timestamps of a hit. *)
Definition times (h : Keyword) : float * float := (start h, end_ h).

(** The number of physical lines of a track. *)
Definition physical_line_count (captions : list Caption) : nat :=
  list_sum (map (fun c => List.length (lines_of c)) captions).

(** No line of [ls] equals the line before it, [prev] being the line before
    the first. *)
Fixpoint no_repeats (prev : string) (ls : list string) : bool :=
  match ls with
  | [] => true
  | l :: rest => negb (String.eqb l prev) && no_repeats l rest
  end.

(** The hits of every line of every cue, nothing suppressed. *)
Definition all_line_hits (keywords : list string) (captions : list Caption)
    : list Keyword :=
  flat_map (fun c => flat_map (hits_of_line keywords c) (lines_of c)) captions.

(** Two videos that [write_edl] cannot tell apart: the same media path and
    frame rate, and hits with the same timestamps. *)
Definition same_footage (v v' : Video) : Prop :=
  vidpath v = vidpath v' /\ fps v = fps v' /\
  map times (hits v) = map times (hits v').

(** ** The stages between the scan and the edit list

    [download_keyword_videos] and [read_result_fps] call external programs.
    The programs and the library functions that read their output are
    parameters; what they raise is a [stage_exn]. *)

Inductive stage_exn :=
| IndexError
| ZeroDivisionError
| StageAssertionError
| ParseError
| ProcessError.

Inductive attempt (A : Type) :=
| Done (a : A)
| Failed (e : stage_exn).

Arguments Done {A} a.
Arguments Failed {A} e.

Definition abind {A B : Type} (r : attempt A) (k : A -> attempt B) : attempt B :=
  match r with
  | Done a => k a
  | Failed e => Failed e
  end.

Declare Scope attempt_scope.
Delimit Scope attempt_scope with attempt.
Notation "x <- r ;; k" := (abind r (fun x => k))
  (at level 61, r at next level, right associativity) : attempt_scope.

(** A [for] loop that appends one value per element to [updated]. *)
Fixpoint afor {X Y : Type} (body : X -> attempt Y) (xs : list X)
    (updated : list Y) : attempt (list Y) :=
  match xs with
  | [] => Done updated
  | x :: rest =>
      (y <- body x ;; afor body rest (updated ++ [y])%list)%attempt
  end.

(** [video._replace(vidpath=path)] and [video._replace(fps=fps)] *)
Definition replace_vidpath (video : Video) (p : string) : Video :=
  {| id := id video; vttpath := vttpath video; vidpath := p;
     fps := fps video; hits := hits video |}.

Definition replace_fps (video : Video) (rate : float) : Video :=
  {| id := id video; vttpath := vttpath video; vidpath := vidpath video;
     fps := rate; hits := hits video |}.

(** The double quote, which a string literal would have to double. *)
Definition QUOTE : ascii := ascii_of_nat 34.

Definition fminus_one : float := S754_finite true (2 ^ 52) (-52).
Definition ftwenty : float := float_of_Z 20.

(** [a / b] on floats: a zero divisor raises. *)
Definition fdiv (a b : float) : attempt float :=
  match b with
  | S754_zero _ => Failed ZeroDivisionError
  | _ => Done (SFdiv prec emax a b)
  end.

Section Enrichment.

(** For the id of a video, the ["_filename"] entry of the JSON document
    that [youtube-dl] prints once it has downloaded the video. *)
Variable youtube_dl_filename : string -> attempt string.

(** For a media path, the output of [ffprobe]. *)
Variable ffprobe : string -> attempt string.

(** [float(s)] *)
Variable py_float : string -> attempt float.

Definition download_keyword_videos (result : list Video)
    : attempt (list Video) :=
  afor (fun video =>
          (p <- youtube_dl_filename (id video) ;;
           Done (replace_vidpath video p))%attempt)
       result [].

Definition read_fps (vidpath : string) : attempt float :=
  (out <- ffprobe vidpath ;;
   match PyStr.split QUOTE out with
   | _ :: field :: _ =>
       match PyStr.split "/" field with
       | [a] => py_float a
       | [a; b] => (x <- py_float a ;; y <- py_float b ;; fdiv x y)
       | _ => Done fminus_one
       end
   | _ => Failed IndexError
   end)%attempt.

Definition read_result_fps (result : list Video) : attempt (list Video) :=
  afor (fun video =>
          (rate <- read_fps (vidpath video) ;;
           if fltb ftwenty rate then Done (replace_fps video rate)
           else Failed StageAssertionError)%attempt)
       result [].

End Enrichment.

(** ** The result directory: [url2dir] *)

(** [s.split(sep)] for a separator of one character or more, left to
    right; [skip] counts the characters of a separator just met that are
    still to be passed over. *)
Fixpoint str_split_from (sep : string) (skip : nat) (s : string)
    : list string :=
  match s with
  | EmptyString => [EmptyString]
  | String c s' =>
      match skip with
      | S k => str_split_from sep k s'
      | O =>
          if PyStr.startswith sep s
          then EmptyString :: str_split_from sep (String.length sep - 1) s'
          else match str_split_from sep 0 s' with
               | l :: ls => String c l :: ls
               | [] => [String c EmptyString]
               end
      end
  end.

Definition str_split (sep s : string) : list string := str_split_from sep 0 s.

(** [s.replace(old, new)] for two characters. *)
Fixpoint replace_char (old new : ascii) (s : string) : string :=
  match s with
  | EmptyString => EmptyString
  | String c s' =>
      String (if Ascii.eqb c old then new else c) (replace_char old new s')
  end.

Definition domains : list string := ["youtube.com"; "youtu.be"].

(** The loop over the domains: the first domain found in the url decides;
    unpacking anything but two fields raises [ValueError], and so does the
    end of the loop. *)
Fixpoint url2dir_from (ds : list string) (url : string) : outcome string :=
  match ds with
  | [] => Raise ValueError
  | d :: rest =>
      if PyStr.contains d url then
        match str_split (d ++ "/") url with
        | [_; after] => Ok (replace_char "/" "_" after)
        | _ => Raise ValueError
        end
      else url2dir_from rest url
  end.

Definition url2dir (url : string) : outcome string := url2dir_from domains url.

(** ** Example inputs *)

(** The example of the specification: two cues, ["a\nb"] then ["b\nc"]. *)
Definition cue_a_b (s e : float) : Caption :=
  {| text := "a" ++ PyStr.nl ++ "b"; _start := s; _end := e |}.
Definition cue_b_c (s e : float) : Caption :=
  {| text := "b" ++ PyStr.nl ++ "c"; _start := s; _end := e |}.

(** A cue with a given text, from second 0 to second 1. *)
Definition cue (t : string) : Caption :=
  {| text := t; _start := fzero; _end := fone |}.

(** A directory of two subtitle files; the track of the first says
    ["a cat"], that of the second ["a dog"]. *)
Definition two_entries (directory : string) : list DirEntry :=
  [ {| name := "abc=Some_title.en.vtt"; path := "subs/abc" |};
    {| name := "xyz=Other.en.vtt"; path := "subs/xyz" |} ].

Definition two_tracks (vttfile : string) : list Caption :=
  if String.eqb vttfile "subs/abc" then [cue "a cat"] else [cue "a dog"].

Definition video_abc : Video :=
  {| id := "abc"; vttpath := "subs/abc"; vidpath := ""; fps := fzero;
     hits := [ {| word := "cat"; start := fzero; end_ := fone |} ] |}.

(** A hit on the keyword ["cat"] between two instants. *)
Definition hit (s e : float) : Keyword :=
  {| word := "cat"; start := s; end_ := e |}.

(** A video of a given frame rate with given hits. *)
Definition clip (rate : float) (hs : list Keyword) : Video :=
  {| id := "abc"; vttpath := "subtitles/abc=Title.en.vtt";
     vidpath := "videos/abc=Title.mp4"; fps := rate; hits := hs |}.

(** One video at 30 frames per second whose [n] hits all last from second 0
    to second 1. *)
Definition corpus_of_hits (n : nat) : list Video :=
  [clip (float_of_Z 30) (repeat (hit fzero fone) n)].

(** A hit of half a second in a video at 24 frames per second, then a hit
    of a hundredth of a second in a video at 30 frames per second. *)
Definition corpus_24_30 : list Video :=
  [clip (float_of_Z 24) [hit fzero (float_of_dyadic 1 (-1))];
   clip (float_of_Z 30) [hit fzero (float_of_ratio 1 100)]].

(** An [ffprobe] that prints the rate 30000/1001 for every file, and one
    that prints a rate with two slashes. *)
Definition ffprobe_ntsc (vidpath : string) : attempt string :=
  Done ("streams.stream.0.r_frame_rate="
        ++ String QUOTE ("30000/1001" ++ String QUOTE PyStr.nl)).

Definition ffprobe_malformed (vidpath : string) : attempt string :=
  Done ("streams.stream.0.r_frame_rate="
        ++ String QUOTE ("1/2/3" ++ String QUOTE PyStr.nl)).

(** [float] restricted to strings of digits. *)
Definition float_of_digits (s : string) : attempt float :=
  if all_digits s && negb (String.eqb s "")
  then Done (float_of_Z (dec_value s))
  else Failed ParseError.

(** A download that stores every video under [videos/], and one without a
    network. *)
Definition download_to_videos (video_id : string) : attempt string :=
  Done ("videos/" ++ video_id ++ ".mp4").

Definition download_offline (video_id : string) : attempt string :=
  Failed ProcessError.

Definition ntsc : float :=
  SFdiv prec emax (float_of_Z 30000) (float_of_Z 1001).

Definition video_abc_downloaded : Video :=
  replace_vidpath video_abc "videos/abc.mp4".

Definition video_abc_probed : Video := replace_fps video_abc_downloaded ntsc.

(** * Properties *)

(** ** Strings *)

Lemma append_nil_r (s : string) : s ++ "" = s.
Proof. induction s as [|c s IH]; simpl; [reflexivity | now rewrite IH]. Qed.

Lemma append_assoc (a b c : string) : (a ++ b) ++ c = a ++ b ++ c.
Proof. induction a as [|x a IH]; simpl; [reflexivity | now rewrite IH]. Qed.

Lemma startswith_iff (w s : string) :
  PyStr.startswith w s = true <-> exists b, s = w ++ b.
Proof.
  revert s; induction w as [|a w IH]; intros s; simpl.
  - split; [intros _; now exists s | reflexivity].
  - destruct s as [|b s].
    + split; [discriminate | intros [t Ht]; discriminate].
    + rewrite andb_true_iff, Ascii.eqb_eq, IH. split.
      * intros [-> [t ->]]. now exists t.
      * intros [t Ht]. injection Ht as -> ->. split; [reflexivity | now exists t].
Qed.

Lemma contains_iff (w s : string) :
  PyStr.contains w s = true <-> occurs_in w s.
Proof.
  unfold occurs_in. induction s as [|c s IH]; simpl.
  - rewrite orb_false_r, startswith_iff. split.
    + intros [b Hb]. now exists "", b.
    + intros [a [b H]]. destruct a; simpl in H; [now exists b | discriminate].
  - rewrite orb_true_iff, startswith_iff, IH. split.
    + intros [[b Hb] | [a [b H]]].
      * now exists "", b.
      * exists (String c a), b. simpl. now rewrite H.
    + intros [a [b H]]. destruct a as [|x a]; simpl in H.
      * left. now exists b.
      * right. injection H as _ H. now exists a, b.
Qed.

Lemma lower_append (a b : string) :
  PyStr.lower (a ++ b) = PyStr.lower a ++ PyStr.lower b.
Proof. induction a as [|x a IH]; simpl; [reflexivity | now rewrite IH]. Qed.

(** A piece of a lowered string is the lowering of a piece. *)
Lemma lower_split_at (s p r : string) :
  PyStr.lower s = p ++ r ->
  exists s1 s2, s = s1 ++ s2 /\ PyStr.lower s1 = p /\ PyStr.lower s2 = r.
Proof.
  revert s; induction p as [|x p IH]; intros s H; simpl in H.
  - exists "", s. auto.
  - destruct s as [|c s]; simpl in H; [discriminate |].
    injection H as Hc H. destruct (IH s H) as [s1 [s2 [-> [H1 H2]]]].
    exists (String c s1), s2. simpl. rewrite Hc, H1. auto.
Qed.

Lemma contains_lower_iff (w raw : string) :
  PyStr.contains w (PyStr.lower raw) = true <->
  exists u, occurs_in u raw /\ PyStr.lower u = w.
Proof.
  rewrite contains_iff. split.
  - intros [a [b H]].
    destruct (lower_split_at _ _ _ H) as [s1 [s2 [-> [H1 H2]]]].
    destruct (lower_split_at _ _ _ H2) as [u [s3 [-> [Hu H3]]]].
    exists u. split; [now exists s1, s3 | assumption].
  - intros [u [[a [b ->]] <-]].
    exists (PyStr.lower a), (PyStr.lower b). now rewrite !lower_append.
Qed.

Lemma lower_char_LF (c : ascii) :
  Ascii.eqb (PyStr.lower_char c) PyStr.LF = Ascii.eqb c PyStr.LF.
Proof.
  destruct c as [[] [] [] [] [] [] [] []]; reflexivity.
Qed.

(** Lowering does not move line breaks. *)
Lemma split_lower (s : string) :
  PyStr.split PyStr.LF (PyStr.lower s)
  = map PyStr.lower (PyStr.split PyStr.LF s).
Proof.
  induction s as [|c s IH]; simpl; [reflexivity |].
  rewrite lower_char_LF. destruct (Ascii.eqb c PyStr.LF).
  - simpl. now rewrite IH.
  - rewrite IH. destruct (PyStr.split PyStr.LF s); reflexivity.
Qed.

(** The first field of a split is the text before the first separator. *)
Lemma split_hd (sep : ascii) (s : string) :
  let h := hd "" (PyStr.split sep s) in
  PyStr.contains (String sep "") h = false /\
  (s = h \/ exists rest, s = h ++ String sep rest).
Proof.
  induction s as [|c s [IHa IHb]]; simpl.
  - split; [reflexivity | now left].
  - destruct (Ascii.eqb c sep) eqn:E; simpl.
    + apply Ascii.eqb_eq in E. subst c. split; [reflexivity |].
      right. now exists s.
    + destruct (PyStr.split sep s) as [|l ls] eqn:Es; simpl in *.
      * rewrite Ascii.eqb_sym, E. simpl. split; [reflexivity |].
        destruct IHb as [-> | [rest ->]]; [now left | right; now exists rest].
      * rewrite Ascii.eqb_sym, E. simpl.
        split.
        -- destruct l; simpl in *; [reflexivity | exact IHa].
        -- destruct IHb as [-> | [rest ->]]; [now left | right; now exists rest].
Qed.

(** ** The matcher *)

Lemma scan_words_spec (keywords : list string) (c : Caption) (line : string)
    (ys : list Keyword) :
  scan_words keywords c line ys = (ys ++ hits_of_line keywords c line)%list.
Proof.
  unfold scan_words, hits_of_line. revert ys.
  induction keywords as [|w ws IH]; intros ys; simpl.
  - now rewrite app_nil_r.
  - destruct (PyStr.contains w line); simpl.
    + rewrite IH, <- app_assoc. reflexivity.
    + apply IH.
Qed.

Lemma scan_line_spec (keywords : list string) (c : Caption) (prev : string)
    (ys : list Keyword) (line : string) :
  scan_line keywords c (prev, ys) line
  = if String.eqb line prev then (prev, ys)
    else (line, (ys ++ hits_of_line keywords c line)%list).
Proof.
  unfold scan_line. destruct (String.eqb line prev); [reflexivity |].
  now rewrite scan_words_spec.
Qed.

Lemma scan_lines_spec (keywords : list string) (c : Caption)
    (ls : list string) (prev : string) (ys : list Keyword) :
  fold_left (scan_line keywords c) ls (prev, ys)
  = (state_after prev ls,
     (ys ++ flat_map (hits_of_line keywords c) (accepted_lines prev ls))%list).
Proof.
  revert prev ys. induction ls as [|l ls IH]; intros prev ys.
  - simpl. now rewrite app_nil_r.
  - cbn [fold_left]. rewrite scan_line_spec. simpl.
    destruct (String.eqb l prev).
    + apply IH.
    + rewrite IH. simpl. now rewrite app_assoc.
Qed.

Lemma scan_caption_spec (keywords : list string) (prev : string)
    (ys : list Keyword) (c : Caption) :
  scan_caption keywords (prev, ys) c
  = (state_after prev (lines_of c), (ys ++ cue_hits keywords prev c)%list).
Proof. apply scan_lines_spec. Qed.

Lemma scan_captions_from (keywords : list string) (cs : list Caption)
    (prev : string) (ys : list Keyword) :
  fold_left (scan_caption keywords) cs (prev, ys)
  = (fold_left (fun st c => state_after st (lines_of c)) cs prev,
     (ys ++ matcher_hits keywords prev cs)%list).
Proof.
  revert prev ys. induction cs as [|c cs IH]; intros prev ys.
  - simpl. now rewrite app_nil_r.
  - cbn [fold_left]. rewrite scan_caption_spec, IH. simpl.
    now rewrite app_assoc.
Qed.

Lemma scan_captions_spec (keywords : list string) (prev : string)
    (cs : list Caption) :
  scan_captions keywords prev cs
  = (fold_left (fun st c => state_after st (lines_of c)) cs prev,
     matcher_hits keywords prev cs).
Proof. unfold scan_captions. now rewrite scan_captions_from. Qed.

Lemma find_keywords_spec (read : string -> list Caption) (vttfile : string)
    (keywords : list string) :
  find_keywords read vttfile keywords = matcher_hits keywords "" (read vttfile).
Proof. unfold find_keywords. now rewrite scan_captions_spec. Qed.

Lemma matcher_hits_app (keywords : list string) (cs1 cs2 : list Caption)
    (prev : string) :
  matcher_hits keywords prev (cs1 ++ cs2)
  = (matcher_hits keywords prev cs1
     ++ matcher_hits keywords
          (fold_left (fun st c => state_after st (lines_of c)) cs1 prev)
          cs2)%list.
Proof.
  revert prev. induction cs1 as [|c cs1 IH]; intros prev; simpl.
  - reflexivity.
  - now rewrite IH, app_assoc.
Qed.

Lemma yielded_by_spec (keywords : list string) (before : list Caption)
    (c : Caption) :
  yielded_by keywords before c = cue_hits keywords (state_before before) c.
Proof.
  unfold yielded_by. now rewrite scan_captions_spec, scan_caption_spec.
Qed.

Lemma hits_of_line_nil (keywords : list string) (c : Caption) :
  ~ In "" keywords -> hits_of_line keywords c "" = [].
Proof.
  unfold hits_of_line. induction keywords as [|w ws IH]; intros H; simpl.
  - reflexivity.
  - destruct w as [|a w]; [exfalso; apply H; now left |].
    simpl. apply IH. intros Hin. apply H. now right.
Qed.

(** C1. One state, the most recently accepted line, is threaded through the
    lines of all cues and starts the next cue where the last one left it;
    a line equal to the state is skipped, nothing is scanned and the state
    stays; any other line becomes the state and is scanned.  On the cues
    ["a\nb"], ["b\nc"] with the keyword ["b"] there is exactly one hit, and
    it is the first cue's. *)
Theorem C1_duplicate_line_suppression :
  (forall read vttfile keywords,
      find_keywords read vttfile keywords
      = matcher_hits keywords "" (read vttfile)) /\
  (forall keywords c prev ys line,
      scan_line keywords c (prev, ys) line
      = if String.eqb line prev then (prev, ys)
        else (line, (ys ++ hits_of_line keywords c line)%list)) /\
  (forall keywords prev ys c,
      scan_caption keywords (prev, ys) c
      = (state_after prev (lines_of c),
         (ys ++ cue_hits keywords prev c)%list)) /\
  (forall keywords before c after,
      matcher_hits keywords "" (before ++ c :: after)
      = (matcher_hits keywords "" before
         ++ cue_hits keywords (state_before before) c
         ++ matcher_hits keywords
              (state_after (state_before before) (lines_of c)) after)%list) /\
  (forall s1 e1 s2 e2 vttfile,
      find_keywords (fun _ => [cue_a_b s1 e1; cue_b_c s2 e2]) vttfile ["b"]
      = [ {| word := "b"; start := s1; end_ := e1 |} ]).
Proof.
  split; [exact find_keywords_spec |].
  split; [exact scan_line_spec |].
  split; [exact scan_caption_spec |].
  split.
  - intros keywords before c after. rewrite matcher_hits_app. reflexivity.
  - intros. reflexivity.
Qed.

Lemma hits_of_line_times (keywords : list string) (c : Caption) (line : string)
    (h : Keyword) :
  In h (hits_of_line keywords c line) ->
  start h = _start c /\ end_ h = _end c /\
  In (word h) keywords /\ PyStr.contains (word h) line = true.
Proof.
  unfold hits_of_line. rewrite in_map_iff.
  intros [w [<- Hw]]. apply filter_In in Hw. simpl. tauto.
Qed.

Lemma accepted_lines_incl (prev : string) (ls : list string) (l : string) :
  In l (accepted_lines prev ls) -> In l ls.
Proof.
  revert prev. induction ls as [|x ls IH]; intros prev; simpl; [tauto |].
  destruct (String.eqb x prev).
  - intros H. right. eapply IH, H.
  - intros [-> | H]; [now left | right; eapply IH, H].
Qed.

(** C6. While it processes a cue the matcher yields, for each accepted
    line in turn, one hit per keyword that occurs in the line, in the order
    of the keywords, each with that keyword and the start and end of the
    cue; occurrence is plain substring containment in the lowered line, so
    a keyword matches whatever the case of the caption text and wherever it
    stands in a word; the hits of a cue follow those of all earlier cues. *)
Theorem C6_hit_contents_and_order :
  (forall keywords before c,
      yielded_by keywords before c
      = flat_map
          (fun line =>
             map (fun w => {| word := w; start := _start c; end_ := _end c |})
                 (filter (fun w => PyStr.contains w line) keywords))
          (accepted_lines (state_before before) (lines_of c))) /\
  (forall keywords before c h,
      In h (yielded_by keywords before c) ->
      start h = _start c /\ end_ h = _end c /\ In (word h) keywords /\
      exists line, In line (lines_of c) /\ occurs_in (word h) line) /\
  (forall w line, PyStr.contains w line = true <-> occurs_in w line) /\
  (forall c,
      lines_of c
      = map PyStr.lower (PyStr.split PyStr.LF (PyStr.strip (text c)))) /\
  (forall w raw,
      PyStr.contains w (PyStr.lower raw) = true <->
      exists u, occurs_in u raw /\ PyStr.lower u = w) /\
  (forall read vttfile keywords before c after,
      read vttfile = (before ++ c :: after)%list ->
      find_keywords read vttfile keywords
      = (find_keywords (fun _ => before) vttfile keywords
         ++ yielded_by keywords before c
         ++ matcher_hits keywords (state_before (before ++ [c])) after)%list).
Proof.
  split; [intros; now rewrite yielded_by_spec |].
  split.
  - intros keywords before c h. rewrite yielded_by_spec.
    unfold cue_hits. rewrite in_flat_map. intros [line [Hl Hh]].
    apply hits_of_line_times in Hh. destruct Hh as [H1 [H2 [H3 H4]]].
    repeat split; try assumption.
    exists line. split.
    + eapply accepted_lines_incl, Hl.
    + now apply contains_iff.
  - split; [exact contains_iff |].
    split; [intros c; apply split_lower |].
    split; [exact contains_lower_iff |].
    intros read vttfile keywords before c after Hread.
    rewrite !find_keywords_spec, Hread, matcher_hits_app, yielded_by_spec.
    simpl. unfold state_before. rewrite fold_left_app. reflexivity.
Qed.

(** Witness of C6 on the specification's example, followed by a third
    cue. *)
Lemma C6_witness :
  find_keywords
    (fun _ => [cue "a dog"; cue "The Cat sat on the mat"; cue "category"])
    "x.vtt" ["mat"; "cat"]
  = [ {| word := "mat"; start := fzero; end_ := fone |};
      {| word := "cat"; start := fzero; end_ := fone |};
      {| word := "cat"; start := fzero; end_ := fone |} ].
Proof.
  pose proof (proj2 (proj2 (proj2 (proj2 (proj2 C6_hit_contents_and_order))))
                (fun _ => [cue "a dog"; cue "The Cat sat on the mat";
                           cue "category"])
                "x.vtt" ["mat"; "cat"] [cue "a dog"]
                (cue "The Cat sat on the mat") [cue "category"] eq_refl) as H.
  rewrite H. reflexivity.
Defined.

(** C8, as amended.  When no keyword is the empty string, a cue whose text
    is empty yields no hit, whatever cues came before it. *)
Theorem C8_empty_cue_no_hits (keywords : list string) (before : list Caption)
    (c : Caption) :
  ~ In "" keywords -> text c = "" -> yielded_by keywords before c = [].
Proof.
  intros Hk Ht. rewrite yielded_by_spec. unfold cue_hits, lines_of.
  rewrite Ht. cbn [PyStr.strip PyStr.lstrip PyStr.rstrip PyStr.lower
                   PyStr.split accepted_lines].
  destruct (String.eqb "" (state_before before)); cbn [flat_map];
    [reflexivity |].
  rewrite hits_of_line_nil by assumption. reflexivity.
Qed.

Lemma C8_witness : yielded_by ["b"] [cue "a"] (cue "") = [].
Proof.
  apply C8_empty_cue_no_hits.
  - simpl. intros [H | []]. discriminate H.
  - reflexivity.
Defined.

(** C8 as stated fails: with the empty string among the keywords, an empty
    cue that follows the cue ["a"] yields a hit. *)
Lemma C8_counterexample :
  text (cue "") = "" /\
  yielded_by [""] [cue "a"] (cue "")
  = [ {| word := ""; start := fzero; end_ := fone |} ].
Proof. split; reflexivity. Qed.

(** C9. The state starts as the empty string.  An empty line met while the
    state is still empty is skipped: nothing is scanned, even for a keyword
    that every line contains, and the state stays; so a track that begins
    with an empty cue yields what the rest of the track yields. *)
Theorem C9_initial_state_skips_empty_line :
  (forall read vttfile keywords,
      find_keywords read vttfile keywords
      = snd (fold_left (scan_caption keywords) (read vttfile) ("", []))) /\
  (forall keywords c ys,
      scan_line keywords c ("", ys) "" = ("", ys)) /\
  (forall read vttfile keywords c rest,
      text c = "" ->
      read vttfile = c :: rest ->
      find_keywords read vttfile keywords
      = find_keywords (fun _ => rest) vttfile keywords) /\
  find_keywords (fun _ => [cue ""]) "x.vtt" [""] = [] /\
  find_keywords (fun _ => [cue "a"; cue ""]) "x.vtt" [""]
  = [ {| word := ""; start := fzero; end_ := fone |};
      {| word := ""; start := fzero; end_ := fone |} ].
Proof.
  split; [reflexivity |].
  split; [reflexivity |].
  split; [| split; reflexivity].
  intros read vttfile keywords c rest Ht Hread.
  rewrite !find_keywords_spec, Hread. simpl.
  unfold cue_hits, lines_of. rewrite Ht. reflexivity.
Qed.

Lemma C9_witness :
  find_keywords (fun _ => [cue ""; cue "a"]) "x.vtt" [""; "a"]
  = find_keywords (fun _ => [cue "a"]) "x.vtt" [""; "a"].
Proof.
  apply (proj1 (proj2 (proj2 C9_initial_state_skips_empty_line))
           (fun _ => [cue ""; cue "a"]) "x.vtt" [""; "a"] (cue "") [cue "a"]);
    reflexivity.
Defined.

(** ** The scanner *)

Lemma scan_entries_spec (read : string -> list Caption)
    (keywords : list string) (entries : list DirEntry) (acc : list Video) :
  fold_left (scan_entry read keywords) entries acc
  = (acc ++ flat_map (record_of read keywords) entries)%list.
Proof.
  revert acc. induction entries as [|e es IH]; intros acc; simpl.
  - now rewrite app_nil_r.
  - rewrite IH. unfold scan_entry, record_of.
    destruct (find_keywords read (path e) keywords); simpl.
    + reflexivity.
    + now rewrite <- app_assoc.
Qed.

(** C7. The scanner returns, in directory order, one record per entry whose
    track has hits and none for an entry whose track has no hit; every
    record has a non-empty list of hits, an empty media path, a frame rate
    of zero and, as its id, the file name up to the first ['=']. *)
Theorem C7_scanner_postcondition :
  (forall scandir read directory keywords,
      find_all_keywords scandir read directory keywords
      = flat_map (record_of read keywords) (scandir directory)) /\
  (forall read keywords entry,
      find_keywords read (path entry) keywords = [] ->
      record_of read keywords entry = []) /\
  (forall scandir read directory keywords v,
      In v (find_all_keywords scandir read directory keywords) ->
      hits v <> [] /\ vidpath v = "" /\ fps v = S754_zero false /\
      exists entry,
        In entry (scandir directory) /\
        id v = video_id_of entry /\ vttpath v = path entry /\
        hits v = find_keywords read (path entry) keywords) /\
  (forall entry,
      PyStr.contains "=" (video_id_of entry) = false /\
      (name entry = video_id_of entry \/
       exists rest, name entry = video_id_of entry ++ String "=" rest)).
Proof.
  assert (Hspec : forall scandir read directory keywords,
             find_all_keywords scandir read directory keywords
             = flat_map (record_of read keywords) (scandir directory)).
  { intros. unfold find_all_keywords. now rewrite scan_entries_spec. }
  split; [exact Hspec |].
  split.
  - intros read keywords entry H. unfold record_of. now rewrite H.
  - split.
    + intros scandir read directory keywords v. rewrite Hspec, in_flat_map.
      intros [entry [Hin Hv]]. unfold record_of in Hv.
      destruct (find_keywords read (path entry) keywords) as [|h hs] eqn:E;
        [contradiction |].
      destruct Hv as [<- | []]. simpl.
      split; [discriminate |]. split; [reflexivity |]. split; [reflexivity |].
      exists entry. rewrite E. auto.
    + intros entry. apply (split_hd "=" (name entry)).
Qed.

Lemma C7_witness :
  find_all_keywords two_entries two_tracks "subs" ["cat"] = [video_abc] /\
  (hits video_abc <> [] /\ vidpath video_abc = "" /\
   fps video_abc = S754_zero false /\
   exists entry,
     In entry (two_entries "subs") /\
     id video_abc = video_id_of entry /\ vttpath video_abc = path entry /\
     hits video_abc = find_keywords two_tracks (path entry) ["cat"]).
Proof.
  split.
  - rewrite (proj1 C7_scanner_postcondition). reflexivity.
  - apply (proj1 (proj2 (proj2 C7_scanner_postcondition))
             two_entries two_tracks "subs" ["cat"] video_abc).
    left. reflexivity.
Defined.

(** ** Binary64 values *)

Lemma digits2_bounds (m : positive) :
  2 ^ (Zpos (digits2_pos m) - 1) <= Zpos m < 2 ^ Zpos (digits2_pos m).
Proof.
  induction m as [m IH | m IH |]; cbn [digits2_pos].
  - rewrite Pos2Z.inj_succ, (Pos2Z.inj_xI m).
    replace (Z.succ (Zpos (digits2_pos m)) - 1)
      with (Z.succ (Zpos (digits2_pos m) - 1)) by lia.
    rewrite !Z.pow_succ_r by lia.
    revert IH. generalize (2 ^ (Zpos (digits2_pos m) - 1)).
    generalize (2 ^ Zpos (digits2_pos m)). intros a b IH. lia.
  - rewrite Pos2Z.inj_succ, (Pos2Z.inj_xO m).
    replace (Z.succ (Zpos (digits2_pos m)) - 1)
      with (Z.succ (Zpos (digits2_pos m) - 1)) by lia.
    rewrite !Z.pow_succ_r by lia.
    revert IH. generalize (2 ^ (Zpos (digits2_pos m) - 1)).
    generalize (2 ^ Zpos (digits2_pos m)). intros a b IH. lia.
  - simpl. lia.
Qed.

(** A number below [2 ^ k] has at most [k] binary digits. *)
Lemma digits2_le (m : positive) (k : Z) :
  Zpos m < 2 ^ k -> Zpos (digits2_pos m) <= k.
Proof.
  intros H. destruct (Z.le_gt_cases (Zpos (digits2_pos m)) k) as [|Hk];
    [assumption | exfalso].
  destruct (Z.le_gt_cases 0 k) as [H0|H0].
  - pose proof (digits2_bounds m) as [Hb _].
    assert (2 ^ k <= 2 ^ (Zpos (digits2_pos m) - 1))
      by (apply Z.pow_le_mono_r; lia).
    lia.
  - rewrite Z.pow_neg_r in H by lia. lia.
Qed.

(** What validity says of a finite float. *)
Lemma valid_finite (s : bool) (m : positive) (e : Z) :
  is_float (S754_finite s m e) = true ->
  Zpos m < 2 ^ 53 /\ -1074 <= e <= 971 /\ (-1074 < e -> 2 ^ 52 <= Zpos m).
Proof.
  unfold is_float, valid_binary, bounded, canonical_mantissa, fexp, SpecFloat.emin,
    prec, emax.
  rewrite andb_true_iff, Z.eqb_eq, Z.leb_le. intros [Hc He].
  pose proof (digits2_bounds m) as [Hlo Hhi].
  assert (Hd : Zpos (digits2_pos m) <= 53) by lia.
  split; [| split; [lia |]].
  - assert (2 ^ Zpos (digits2_pos m) <= 2 ^ 53)
      by (apply Z.pow_le_mono_r; lia).
    lia.
  - intros Hn. assert (Zpos (digits2_pos m) = 53) as Hd53 by lia.
    rewrite Hd53 in Hlo. exact Hlo.
Qed.

(** Truncation of [m * 2 ^ e] for a mantissa below [2 ^ 53]. *)
Lemma trunc_below (m e j : Z) :
  0 <= m < 2 ^ 53 -> e <= - j -> 0 <= j <= 53 ->
  0 <= Z.shiftl m e < 2 ^ (53 - j).
Proof.
  intros Hm He Hj. rewrite Z.shiftl_div_pow2 by lia.
  assert (H2j : 0 < 2 ^ j) by (apply Z.pow_pos_nonneg; lia).
  assert (H2e : 2 ^ j <= 2 ^ (- e)) by (apply Z.pow_le_mono_r; lia).
  split; [apply Z.div_pos; lia |].
  apply Z.le_lt_trans with (m / 2 ^ j).
  - apply Z.div_le_compat_l; lia.
  - apply Z.div_lt_upper_bound; [lia |].
    rewrite <- Z.pow_add_r by lia. replace (j + (53 - j)) with 53 by lia. lia.
Qed.

(** Truncation of [m * 2 ^ e] for a mantissa of 53 bits. *)
Lemma trunc_above (m e j : Z) :
  2 ^ 52 <= m -> - j <= e -> 0 <= j <= 52 ->
  2 ^ (52 - j) <= Z.shiftl m e.
Proof.
  intros Hm He Hj.
  assert (H2j : 0 < 2 ^ j) by (apply Z.pow_pos_nonneg; lia).
  assert (Hs : 2 ^ (52 - j) * 2 ^ j = 2 ^ 52).
  { rewrite <- Z.pow_add_r by lia. f_equal. lia. }
  assert (Hle : 2 ^ (52 - j) <= 2 ^ 52) by (apply Z.pow_le_mono_r; lia).
  destruct (Z.le_gt_cases 0 e) as [H0 | H0].
  - rewrite Z.shiftl_mul_pow2 by lia.
    assert (0 < 2 ^ e) by (apply Z.pow_pos_nonneg; lia). nia.
  - rewrite Z.shiftl_div_pow2 by lia.
    assert (H2e : 2 ^ (- e) <= 2 ^ j) by (apply Z.pow_le_mono_r; lia).
    assert (0 < 2 ^ (- e)) by (apply Z.pow_pos_nonneg; lia).
    apply Z.le_trans with (m / 2 ^ j).
    + apply Z.div_le_lower_bound; lia.
    + apply Z.div_le_compat_l; lia.
Qed.

(** A float at least zero and below the float [N = mB * 2 ^ (- k)]
    truncates to an integer from [0] to [N - 1]. *)
Lemma int_of_float_below (x : float) (mB : positive) (k N : Z) :
  is_float x = true ->
  fleb fzero x = true ->
  fltb x (S754_finite false mB (- k)) = true ->
  0 <= k <= 52 -> Zpos mB = N * 2 ^ k -> 2 ^ (52 - k) <= N ->
  exists n, int_of_float x = Ok n /\ 0 <= n < N.
Proof.
  intros Hv H0 Hlt Hk HB HN.
  assert (H2k : 0 < 2 ^ k) by (apply Z.pow_pos_nonneg; lia).
  assert (HNpos : 0 < N).
  { assert (0 < 2 ^ (52 - k)) by (apply Z.pow_pos_nonneg; lia). lia. }
  destruct x as [s | s | | s m e]; try discriminate.
  - exists 0. split; [reflexivity | lia].
  - destruct s; discriminate.
  - destruct s; [discriminate |].
    apply valid_finite in Hv. destruct Hv as [Hm [He Hn]].
    exists (Z.shiftl (Zpos m) e). split; [reflexivity |].
    unfold fltb, SFltb, SFcompare in Hlt.
    destruct (Z.compare_spec e (- k)) as [-> | Hlt' | Hgt]; try discriminate.
    + change (Pos.compare_cont Eq m mB) with (Pos.compare m mB) in Hlt.
      destruct (Pos.compare_spec m mB) as [| Hmb |]; try discriminate.
      rewrite Z.shiftl_div_pow2 by lia.
      replace (- - k) with k by lia.
      split; [apply Z.div_pos; lia |].
      apply Z.div_lt_upper_bound; [lia |].
      apply Pos2Z.pos_lt_pos in Hmb. lia.
    + destruct (trunc_below (Zpos m) e (k + 1)) as [Ha Hb]; try lia.
      replace (53 - (k + 1)) with (52 - k) in Hb by lia. lia.
Qed.

(** A float at least the float [N = mB * 2 ^ (- k)] truncates, when it is
    finite, to an integer that is at least [N]. *)
Lemma int_of_float_above (x : float) (mB : positive) (k N n : Z) :
  is_float x = true ->
  fleb (S754_finite false mB (- k)) x = true ->
  1 <= k <= 53 -> Zpos mB = N * 2 ^ k -> N <= 2 ^ (53 - k) ->
  int_of_float x = Ok n ->
  N <= n.
Proof.
  intros Hv Hle Hk HB HN Hn.
  assert (H2k : 0 < 2 ^ k) by (apply Z.pow_pos_nonneg; lia).
  destruct x as [s | s | | s m e]; try discriminate.
  destruct s; [discriminate |].
  apply valid_finite in Hv. destruct Hv as [Hm [He Hnorm]].
  simpl in Hn. injection Hn as <-.
  unfold fleb, SFleb, SFcompare in Hle.
  destruct (Z.compare_spec (- k) e) as [<- | Hlt | Hgt]; try discriminate.
  - change (Pos.compare_cont Eq mB m) with (Pos.compare mB m) in Hle.
    rewrite Z.shiftl_div_pow2 by lia. replace (- - k) with k by lia.
    apply Z.div_le_lower_bound; [lia |].
    destruct (Pos.compare_spec mB m) as [<- | Hmb |]; try discriminate.
    + lia.
    + apply Pos2Z.pos_lt_pos in Hmb. lia.
  - pose proof (trunc_above (Zpos m) e (k - 1)) as Ha.
    replace (52 - (k - 1)) with (53 - k) in Ha by lia.
    assert (2 ^ 52 <= Zpos m) by (apply Hnorm; lia).
    lia.
Qed.

(** ** Integers as text *)

Lemma digit_char_is_digit (d : Z) :
  0 <= d < 10 -> is_digit (digit_char d) = true.
Proof.
  intros H.
  assert (E : d = 0 \/ d = 1 \/ d = 2 \/ d = 3 \/ d = 4 \/ d = 5 \/ d = 6
              \/ d = 7 \/ d = 8 \/ d = 9) by lia.
  repeat (destruct E as [-> | E]; [reflexivity |]). now subst d.
Qed.

Lemma digit_value_char (d : Z) : 0 <= d < 10 -> digit_value (digit_char d) = d.
Proof.
  intros H.
  assert (E : d = 0 \/ d = 1 \/ d = 2 \/ d = 3 \/ d = 4 \/ d = 5 \/ d = 6
              \/ d = 7 \/ d = 8 \/ d = 9) by lia.
  repeat (destruct E as [-> | E]; [reflexivity |]). now subst d.
Qed.

Lemma dec_digits_value (fuel : nat) (n : Z) (acc : string) :
  0 <= n < 2 ^ Z.of_nat fuel ->
  dec_value (dec_digits fuel n acc)
  = n * 10 ^ Z.of_nat (String.length acc) + dec_value acc.
Proof.
  revert n acc. induction fuel as [|k IH]; intros n acc Hn.
  - simpl in *. assert (n = 0) by lia. subst n. reflexivity.
  - cbn [dec_digits].
    assert (Hd : 0 <= n mod 10 < 10) by (apply Z.mod_pos_bound; lia).
    pose proof (Z.div_mod n 10) as Hdm.
    destruct (Z.ltb_spec n 10) as [Hlt | Hge].
    + cbn [dec_value]. rewrite digit_value_char by exact Hd.
      rewrite Z.mod_small by lia. reflexivity.
    + rewrite IH.
      * cbn [dec_value String.length]. rewrite digit_value_char by exact Hd.
        rewrite Nat2Z.inj_succ, Z.pow_succ_r by lia.
        set (q := 10 ^ Z.of_nat (String.length acc)). nia.
      * rewrite Nat2Z.inj_succ, Z.pow_succ_r in Hn by lia.
        split; [apply Z.div_pos; lia |].
        apply Z.div_lt_upper_bound; lia.
Qed.

(** The digits of a number denote it. *)
Lemma str_nat_value (n : Z) : 0 <= n -> dec_value (str_nat n) = n.
Proof.
  intros H. unfold str_nat. rewrite dec_digits_value.
  - simpl. lia.
  - split; [exact H |].
    rewrite Nat2Z.inj_succ, Z2Nat.id by apply Z.log2_nonneg.
    destruct (Z.eq_dec n 0) as [-> | Hn]; [reflexivity |].
    apply Z.log2_spec. lia.
Qed.

Lemma all_digits_app (a b : string) :
  all_digits (a ++ b) = all_digits a && all_digits b.
Proof.
  induction a as [|c a IH]; simpl; [reflexivity |].
  now rewrite IH, andb_assoc.
Qed.

Lemma string_length_app (a b : string) :
  String.length (a ++ b) = (String.length a + String.length b)%nat.
Proof. induction a as [|c a IH]; simpl; [reflexivity | now rewrite IH]. Qed.

Lemma all_digits_zeros (k : nat) : all_digits (zeros k) = true.
Proof. induction k as [|k IH]; simpl; [reflexivity | exact IH]. Qed.

Lemma length_zeros (k : nat) : String.length (zeros k) = k.
Proof. induction k as [|k IH]; simpl; [reflexivity | now rewrite IH]. Qed.

Lemma all_digits_dec (fuel : nat) (n : Z) (acc : string) :
  0 <= n -> all_digits acc = true ->
  all_digits (dec_digits fuel n acc) = true.
Proof.
  revert n acc. induction fuel as [|k IH]; intros n acc Hn Hacc; simpl.
  - exact Hacc.
  - assert (Hd : all_digits (String (digit_char (n mod 10)) acc) = true).
    { simpl. rewrite Hacc, digit_char_is_digit; [reflexivity |].
      apply Z.mod_pos_bound. lia. }
    destruct (n <? 10); [exact Hd |].
    apply IH; [apply Z.div_pos; lia | exact Hd].
Qed.

Lemma length_dec (fuel : nat) (n : Z) (acc : string) :
  (String.length acc <= String.length (dec_digits fuel n acc))%nat.
Proof.
  revert n acc. induction fuel as [|k IH]; intros n acc; simpl; [lia |].
  destruct (n <? 10); simpl; [lia |].
  eapply Nat.le_trans; [| apply IH]. simpl. lia.
Qed.

Lemma all_digits_str_nat (n : Z) : 0 <= n -> all_digits (str_nat n) = true.
Proof. intros H. now apply all_digits_dec. Qed.

Lemma length_str_nat (n : Z) : (1 <= String.length (str_nat n))%nat.
Proof.
  unfold str_nat. cbn [dec_digits]. destruct (n <? 10); simpl; [lia |].
  eapply Nat.le_trans; [| apply length_dec]. simpl. lia.
Qed.

Lemma str_nat_one_digit (n : Z) :
  0 <= n < 10 -> str_nat n = String (digit_char n) "".
Proof.
  intros H. unfold str_nat. cbn [dec_digits].
  destruct (Z.ltb_spec n 10); [| lia]. now rewrite Z.mod_small.
Qed.

Lemma str_nat_two_digits (n : Z) :
  10 <= n < 100 -> String.length (str_nat n) = 2%nat.
Proof.
  intros H. unfold str_nat.
  assert (Hl : 3 <= Z.log2 n) by (apply Z.log2_le_pow2; simpl; lia).
  destruct (Z.to_nat (Z.log2 n)) as [|k] eqn:E; [lia |].
  cbn [dec_digits].
  destruct (Z.ltb_spec n 10); [lia |].
  destruct (Z.ltb_spec (n / 10) 10) as [|Hge]; [reflexivity |].
  assert (n / 10 < 10) by (apply Z.div_lt_upper_bound; lia). lia.
Qed.

(** The format of a natural number: zeros, then its digits. *)
Lemma format_int0_nat (width : nat) (n : Z) :
  0 <= n ->
  format_int0 width n
  = zeros (width - String.length (str_nat n)) ++ str_nat n.
Proof.
  intros H. unfold format_int0.
  destruct (Z.ltb_spec n 0); [lia |].
  rewrite Z.abs_eq by lia. simpl. now rewrite Nat.sub_0_r.
Qed.

Lemma all_digits_format (width : nat) (n : Z) :
  0 <= n -> all_digits (format_int0 width n) = true.
Proof.
  intros H. rewrite format_int0_nat by assumption.
  now rewrite all_digits_app, all_digits_zeros, all_digits_str_nat.
Qed.


Lemma str_int_nat (n : Z) : 0 <= n -> str_int n = str_nat n.
Proof. intros H. unfold str_int. now rewrite format_int0_nat. Qed.

(** Two digits exactly for a number below 100. *)
Lemma two_digits_format (n : Z) :
  0 <= n < 100 -> two_digits (format_int0 2 n) = true.
Proof.
  intros H. unfold two_digits.
  rewrite all_digits_format by lia. rewrite format_int0_nat by lia.
  rewrite string_length_app, length_zeros.
  destruct (Z.lt_ge_cases n 10).
  - rewrite str_nat_one_digit by lia. reflexivity.
  - rewrite str_nat_two_digits by lia. reflexivity.
Qed.

(** ** Shapes of timecodes *)

Lemma digit_not_colon (c : ascii) :
  is_digit c = true -> Ascii.eqb c ":" = false.
Proof.
  destruct c as [[] [] [] [] [] [] [] []]; vm_compute; congruence.
Qed.

Lemma split_digits (a : string) :
  all_digits a = true -> PyStr.split ":" a = [a].
Proof.
  induction a as [|c a IH]; simpl; [reflexivity |].
  rewrite andb_true_iff. intros [Hc Ha].
  now rewrite (digit_not_colon c Hc), (IH Ha).
Qed.

Lemma split_digits_colon (a b : string) :
  all_digits a = true ->
  PyStr.split ":" (a ++ String ":" b) = a :: PyStr.split ":" b.
Proof.
  induction a as [|c a IH]; simpl; [reflexivity |].
  rewrite andb_true_iff. intros [Hc Ha].
  now rewrite (digit_not_colon c Hc), (IH Ha).
Qed.

Lemma hms_shape_intro (h m sec : string) :
  all_digits h = true -> (1 <= String.length h)%nat ->
  two_digits m = true -> two_digits sec = true ->
  hms_shape (h ++ ":" ++ m ++ ":" ++ sec) = true.
Proof.
  intros Hh Hl Hm Hs. unfold hms_shape.
  pose proof Hm as Hm'. pose proof Hs as Hs'.
  unfold two_digits in Hm', Hs'. apply andb_true_iff in Hm', Hs'.
  change (":" ++ m ++ ":" ++ sec) with (String ":" (m ++ String ":" sec)).
  rewrite split_digits_colon, split_digits_colon, split_digits by tauto.
  rewrite Hh, Hm, Hs. destruct h; [simpl in Hl; lia | reflexivity].
Qed.


(** The fields of a string in digits and colons are in digits, and
    conversely. *)
Lemma fields_timecode_chars (s : string) :
  forallb all_digits (PyStr.split ":" s) = true -> timecode_chars s = true.
Proof.
  induction s as [|c s IH]; simpl; [reflexivity |].
  destruct (Ascii.eqb c ":") eqn:E.
  - simpl. intros H. rewrite orb_true_r. simpl. now apply IH.
  - destruct (PyStr.split ":" s) as [|l ls]; simpl.
    + rewrite !andb_true_r. intros ->. simpl. now apply IH.
    + rewrite <- andb_assoc, andb_true_iff. intros [-> H]. simpl. now apply IH.
Qed.

Lemma hmsf_shape_chars (s : string) :
  hmsf_shape s = true -> timecode_chars s = true.
Proof.
  unfold hmsf_shape, two_digits. intros H. apply fields_timecode_chars.
  destruct (PyStr.split ":" s) as [|h [|m [|sec [|f [|x rest]]]]];
    try discriminate.
  repeat (apply andb_true_iff in H; destruct H as [H ?]).
  repeat match goal with
         | Hx : _ && _ = true |- _ =>
             apply andb_true_iff in Hx; destruct Hx as [Hx ?]
         end.
  simpl. repeat (apply andb_true_iff; split); auto.
Qed.

Lemma timecode_chars_app (a b : string) :
  timecode_chars (a ++ b) = timecode_chars a && timecode_chars b.
Proof.
  induction a as [|c a IH]; simpl; [reflexivity |].
  now rewrite IH, andb_assoc.
Qed.

(** A string with a day component is not of the shape [H:MM:SS:FF]. *)
Lemma day_component_not_hmsf (s : string) :
  day_component s = true -> hmsf_shape s = false.
Proof.
  unfold day_component. rewrite contains_iff. intros [a [b ->]].
  destruct (hmsf_shape (a ++ " day" ++ b)) eqn:E; [| reflexivity].
  apply hmsf_shape_chars in E. rewrite timecode_chars_app in E.
  apply andb_true_iff in E. destruct E as [_ E]. discriminate E.
Qed.

(** ** The timecode codec *)

Lemma timedelta_small (n : Z) :
  0 <= n < 86400 ->
  timedelta_of_seconds n
  = Ok {| days := 0; seconds := n; microseconds := 0 |}.
Proof.
  intros H. unfold timedelta_of_seconds.
  rewrite Z.div_small, Z.mod_small by lia. reflexivity.
Qed.

Lemma timedelta_str_small (n : Z) :
  timedelta_str {| days := 0; seconds := n; microseconds := 0 |}
  = hms_of_seconds n.
Proof.
  unfold timedelta_str, hms_of_seconds. cbn [days seconds microseconds].
  rewrite Z.div_div by lia. reflexivity.
Qed.

Lemma hms_shape_small (n : Z) :
  0 <= n < 86400 -> hms_shape (hms_of_seconds n) = true.
Proof.
  intros H. unfold hms_of_seconds.
  assert (0 <= n / 3600) by (apply Z.div_pos; lia).
  assert (0 <= (n / 60) mod 60 < 60) by (apply Z.mod_pos_bound; lia).
  assert (0 <= n mod 60 < 60) by (apply Z.mod_pos_bound; lia).
  apply hms_shape_intro.
  - apply all_digits_format. lia.
  - rewrite str_int_nat by lia. apply length_str_nat.
  - apply two_digits_format. lia.
  - apply two_digits_format. lia.
Qed.

(** The text of a duration that has days. *)
Lemma timedelta_str_days (td : timedelta) :
  days td <> 0 -> microseconds td = 0 ->
  exists b, timedelta_str td = str_int (days td) ++ " day" ++ b.
Proof.
  intros Hd Hm. unfold timedelta_str. rewrite Hm. cbn [Z.eqb].
  destruct (Z.eqb_spec (days td) 0); [contradiction |].
  eexists. reflexivity.
Qed.

(** What a returned timecode is made of. *)
Lemma timecode_ok (secs rate : float) (s : string) :
  timecode secs rate = Ok s ->
  exists n frame,
    int_of_float secs = Ok n /\
    Z.abs (n / 86400) <= 999999999 /\
    timecode_frame secs rate = Ok frame /\
    s = timedelta_str {| days := n / 86400; seconds := n mod 86400;
                         microseconds := 0 |}
        ++ ":" ++ format_int0 2 frame.
Proof.
  unfold timecode, timecode_hms, timedelta_of_seconds.
  destruct (int_of_float secs) as [n|x]; simpl; [| discriminate].
  destruct (Z.gtb_spec (Z.abs (n / 86400)) 999999999) as [Hgt | Hle]; simpl;
    [discriminate |].
  destruct (timecode_frame secs rate) as [frame|x]; simpl; [| discriminate].
  intros H. injection H as <-. exists n, frame. repeat split. exact Hle.
Qed.

Lemma fleb_nonneg (mB : positive) (eB : Z) (x : float) :
  fleb (S754_finite false mB eB) x = true -> fleb fzero x = true.
Proof.
  destruct x as [s | s | | s m e]; try discriminate;
    destruct s; try discriminate; reflexivity.
Qed.

(** ** Rounding *)

Ltac pow2_side :=
  first [ lia
        | apply Z.pow_pos_nonneg; lia
        | apply Z.pow_nonzero; lia ].

Lemma fexp_eq (x : Z) : fexp prec emax x = Z.max (x - 53) (-1074).
Proof. reflexivity. Qed.

Lemma shr_1_m (mrs : shr_record) :
  0 <= shr_m mrs -> shr_m (shr_1 mrs) = shr_m mrs / 2.
Proof.
  destruct mrs as [m r s]. cbn [shr_m]. intros H.
  rewrite <- Z.div2_div.
  destruct m as [|[p|p|]|p]; try reflexivity. lia.
Qed.

Lemma iter_shr_1_m (p : positive) (mrs : shr_record) :
  0 <= shr_m mrs ->
  shr_m (iter_pos shr_1 p mrs) = shr_m mrs / 2 ^ Zpos p.
Proof.
  revert mrs. induction p as [p IH | p IH |]; intros mrs H; cbn [iter_pos].
  - assert (H1 : 0 <= shr_m (shr_1 mrs))
      by (rewrite shr_1_m by assumption; apply Z.div_pos; lia).
    assert (H2 : 0 <= shr_m (iter_pos shr_1 p (shr_1 mrs))).
    { rewrite IH by assumption. apply Z.div_pos; [lia |].
      apply Z.pow_pos_nonneg; lia. }
    rewrite IH, IH, shr_1_m by assumption.
    rewrite !Z.div_div by pow2_side.
    f_equal. rewrite (Pos2Z.inj_xI p).
    rewrite <- Z.pow_add_r by lia.
    rewrite <- (Z.pow_1_r 2) at 1. rewrite <- Z.pow_add_r by lia.
    f_equal. lia.
  - assert (H2 : 0 <= shr_m (iter_pos shr_1 p mrs)).
    { rewrite IH by assumption. apply Z.div_pos; [lia |].
      apply Z.pow_pos_nonneg; lia. }
    rewrite IH, IH by assumption.
    rewrite Z.div_div by pow2_side.
    f_equal. rewrite (Pos2Z.inj_xO p), <- Z.pow_add_r by lia. f_equal. lia.
  - rewrite shr_1_m by assumption. reflexivity.
Qed.

Lemma shr_record_of_loc_m (m : Z) (l : location) :
  shr_m (shr_record_of_loc m l) = m.
Proof. destruct l as [|[]]; reflexivity. Qed.

(** The first component of [shr_fexp] is the mantissa divided by the
    power of two that brings the exponent up to [fexp]. *)
Lemma shr_fexp_spec (m e : Z) (l : location) :
  0 <= m ->
  let k := Z.max 0 (fexp prec emax (Zdigits2 m + e) - e) in
  shr_m (fst (shr_fexp prec emax m e l)) = m / 2 ^ k /\
  snd (shr_fexp prec emax m e l) = e + k.
Proof.
  intros H k. unfold shr_fexp, shr. subst k.
  destruct (fexp prec emax (Zdigits2 m + e) - e) as [|p|p] eqn:E;
    cbn [fst snd].
  - rewrite shr_record_of_loc_m. simpl. rewrite Z.div_1_r. lia.
  - rewrite iter_shr_1_m by (rewrite shr_record_of_loc_m; exact H).
    rewrite shr_record_of_loc_m.
    replace (Z.max 0 (Zpos p)) with (Zpos p) by lia. auto.
  - rewrite shr_record_of_loc_m.
    replace (Z.max 0 (Zneg p)) with 0 by lia.
    simpl. rewrite Z.div_1_r. lia.
Qed.

Lemma round_nearest_even_bounds (m : Z) (l : location) :
  m <= round_nearest_even m l <= m + 1.
Proof.
  destruct l as [|[]]; simpl; try lia. destruct (Z.even m); lia.
Qed.

Lemma Zdigits2_le (m k : Z) :
  0 <= m < 2 ^ k -> 0 <= k -> Zdigits2 m <= k.
Proof.
  intros [H0 H] Hk. destruct m as [|p|p]; cbn [Zdigits2]; [lia | | lia].
  apply digits2_le. exact H.
Qed.

(** Rounding a positive mantissa gives a finite float when the rounded
    mantissa stays below the power of two of the largest exponent. *)
Lemma binary_round_aux_finite (s : bool) (mx ex : Z) (lx : location) :
  0 <= mx ->
  let k := Z.max 0 (fexp prec emax (Zdigits2 mx + ex) - ex) in
  ex + k <= 971 ->
  mx / 2 ^ k + 1 < 2 ^ (1024 - (ex + k)) ->
  binary_round_aux prec emax s mx ex lx = S754_zero s \/
  exists m e, binary_round_aux prec emax s mx ex lx = S754_finite s m e.
Proof.
  intros Hmx k Hek Hm. unfold binary_round_aux.
  destruct (shr_fexp_spec mx ex lx Hmx) as [H1 H2]. fold k in H1, H2.
  destruct (shr_fexp prec emax mx ex lx) as [mrs' e']. cbn [fst snd] in H1, H2.
  set (m1 := round_nearest_even (shr_m mrs') (loc_of_shr_record mrs')).
  pose proof (round_nearest_even_bounds (shr_m mrs') (loc_of_shr_record mrs'))
    as Hr. fold m1 in Hr.
  assert (H2k : 0 < 2 ^ k) by (apply Z.pow_pos_nonneg; lia).
  assert (Hm' : 0 <= shr_m mrs') by (rewrite H1; apply Z.div_pos; lia).
  assert (Hm1 : 0 <= m1) by lia.
  destruct (shr_fexp_spec m1 e' loc_Exact Hm1) as [H3 H4].
  destruct (shr_fexp prec emax m1 e' loc_Exact) as [mrs'' e''].
  cbn [fst snd] in H3, H4.
  assert (Hd : Zdigits2 m1 <= 1024 - e').
  { apply Zdigits2_le; [| lia]. rewrite H2. lia. }
  assert (He'' : e'' <= 971).
  { rewrite H4, fexp_eq. lia. }
  assert (Hm'' : 0 <= shr_m mrs'').
  { rewrite H3. apply Z.div_pos; [lia |]. apply Z.pow_pos_nonneg; lia. }
  destruct (shr_m mrs'') as [|p|p]; [left; reflexivity | | lia].
  right. destruct (Z.leb_spec e'' (emax - prec)) as [|Hgt];
    [exists p, e''; reflexivity |].
  unfold emax, prec in Hgt. lia.
Qed.

(** Rounding a mantissa that is already canonical changes nothing. *)
Lemma binary_round_aux_exact (s : bool) (m : positive) (e : Z) :
  fexp prec emax (Zpos (digits2_pos m) + e) <= e -> e <= 971 ->
  binary_round_aux prec emax s (Zpos m) e loc_Exact = S754_finite s m e.
Proof.
  intros Hf He. unfold binary_round_aux.
  assert (Hs : shr_fexp prec emax (Zpos m) e loc_Exact
               = ({| shr_m := Zpos m; shr_r := false; shr_s := false |}, e)).
  { unfold shr_fexp, shr. cbn [Zdigits2 shr_record_of_loc].
    destruct (fexp prec emax (Zpos (digits2_pos m) + e) - e) eqn:E;
      try reflexivity. lia. }
  rewrite Hs. cbn [shr_m loc_of_shr_record round_nearest_even]. rewrite Hs.
  cbn [shr_m]. destruct (Z.leb_spec e (emax - prec)) as [|Hgt];
    [reflexivity |].
  unfold emax, prec in Hgt. lia.
Qed.

Lemma iter_xO_value (m d : positive) :
  Zpos (Pos.iter xO m d) = Zpos m * 2 ^ Zpos d.
Proof.
  induction d as [|d IH] using Pos.peano_ind.
  - simpl. rewrite (Pos2Z.inj_xO m). lia.
  - rewrite Pos.iter_succ, (Pos2Z.inj_xO (Pos.iter xO m d)), IH.
    rewrite Pos2Z.inj_succ, Z.pow_succ_r by lia. lia.
Qed.

Lemma iter_xO_digits (m d : positive) :
  Zpos (digits2_pos (Pos.iter xO m d)) = Zpos (digits2_pos m) + Zpos d.
Proof.
  induction d as [|d IH] using Pos.peano_ind.
  - simpl. lia.
  - rewrite Pos.iter_succ. cbn [digits2_pos].
    rewrite Pos2Z.inj_succ, IH. lia.
Qed.

(** The float of a positive mantissa that fits: its value is kept, and a
    value below one stays below one. *)
Lemma binary_round_fraction (r : positive) (e : Z) :
  Zpos r < 2 ^ 53 -> -1074 <= e <= -1 -> Zpos r < 2 ^ (- e) ->
  exists mz ez,
    binary_round prec emax false r e = S754_finite false mz ez /\
    ez <= -1 /\ Zpos mz < 2 ^ (- ez).
Proof.
  intros Hr He Hlt.
  assert (Hd : Zpos (digits2_pos r) <= 53) by (apply digits2_le; exact Hr).
  unfold binary_round, shl_align.
  set (e' := fexp prec emax (Zpos (digits2_pos r) + e)).
  assert (He' : e' <= e /\ -1074 <= e').
  { unfold e'. rewrite fexp_eq. lia. }
  destruct (e' - e) as [|d|d] eqn:E; [| lia |].
  - assert (e' = e) by lia.
    exists r, e. split; [| split; [lia | exact Hlt]].
    apply binary_round_aux_exact; [fold e'; lia | lia].
  - exists (Pos.iter xO r d), e'. split; [| split; [lia |]].
    + apply binary_round_aux_exact; [| lia].
      rewrite iter_xO_digits.
      replace (Zpos (digits2_pos r) + Zpos d + e')
        with (Zpos (digits2_pos r) + e) by lia.
      fold e'. lia.
    + rewrite iter_xO_value.
      replace (- e') with (- e + Zpos d) by lia.
      rewrite Z.pow_add_r by lia.
      assert (0 < 2 ^ Zpos d) by (apply Z.pow_pos_nonneg; lia). nia.
Qed.

(** The remainder modulo one of a float that is not negative is zero or a
    positive float below one. *)
Lemma float_rem1_nonneg (secs : float) :
  is_float secs = true -> is_finite secs = true -> fleb fzero secs = true ->
  float_rem1 secs = S754_zero false \/
  exists mz ez,
    float_rem1 secs = S754_finite false mz ez /\
    ez <= -1 /\ Zpos mz < 2 ^ (- ez).
Proof.
  intros Hv Hf H0. destruct secs as [s | s | | s m e]; try discriminate.
  - left. reflexivity.
  - destruct s; [discriminate |].
    apply valid_finite in Hv. destruct Hv as [Hm [He _]].
    unfold float_rem1, fmod1.
    destruct e as [|p|p]; [left; reflexivity | left; reflexivity |].
    assert (H2p : 0 < 2 ^ Zpos p) by (apply Z.pow_pos_nonneg; lia).
    pose proof (Z.mod_pos_bound (Zpos m) (2 ^ Zpos p) H2p) as Hr.
    assert (Hle : Zpos m mod 2 ^ Zpos p <= Zpos m)
      by (apply Z.mod_le; lia).
    destruct (Zpos m mod 2 ^ Zpos p) as [|r|r]; [left; reflexivity | | lia].
    cbn [cond_Zopp binary_normalize].
    destruct (binary_round_fraction r (Zneg p)) as [mz [ez [E [H1 H2]]]];
      [lia | lia | exact (proj2 Hr) |].
    rewrite E. right. exists mz, ez.
    split; [reflexivity | split; assumption].
Qed.

(** The product of a float below one and a finite float is finite. *)
Lemma fmul_fraction (mx : positive) (ex : Z) (my : positive) (ey : Z) :
  ex <= -1 -> Zpos mx < 2 ^ (- ex) ->
  is_float (S754_finite false my ey) = true ->
  fmul (S754_finite false mx ex) (S754_finite false my ey) = S754_zero false \/
  exists m e,
    fmul (S754_finite false mx ex) (S754_finite false my ey)
    = S754_finite false m e.
Proof.
  intros Hex Hmx Hv. apply valid_finite in Hv. destruct Hv as [Hmy [Hey _]].
  unfold fmul, SFmul. cbn [xorb].
  set (A := 2 ^ (- ex)) in *. set (B := 2 ^ (1024 - ey)).
  assert (HA : 2 <= A).
  { unfold A. change 2 with (2 ^ 1) at 1. apply Z.pow_le_mono_r; lia. }
  assert (HB : 2 ^ 53 <= B) by (apply Z.pow_le_mono_r; lia).
  assert (HM : Zpos (mx * my) < 2 ^ (53 - ex)).
  { rewrite Pos2Z.inj_mul.
    replace (53 - ex) with (- ex + 53) by lia. rewrite Z.pow_add_r by lia.
    fold A. nia. }
  assert (HdM : Zdigits2 (Zpos (mx * my)) <= 53 - ex)
    by (apply Zdigits2_le; lia).
  set (k := Z.max 0 (fexp prec emax (Zdigits2 (Zpos (mx * my)) + (ex + ey))
                     - (ex + ey))).
  assert (Hk : 0 <= k <= - ex).
  { unfold k. rewrite fexp_eq. lia. }
  assert (H2k : 0 < 2 ^ k <= A).
  { split; [apply Z.pow_pos_nonneg; lia |].
    unfold A. apply Z.pow_le_mono_r; lia. }
  apply binary_round_aux_finite; fold k; [lia | lia |].
  set (P := 2 ^ (1024 - (ex + ey + k))).
  assert (HP : P * 2 ^ k = A * B).
  { unfold P, A, B. rewrite <- !Z.pow_add_r by lia. f_equal. lia. }
  assert (Zpos (mx * my) / 2 ^ k < P - 1); [| lia].
  apply Z.div_lt_upper_bound; [lia |].
  rewrite Pos2Z.inj_mul. nia.
Qed.

(** The frame number of an instant that is not negative, at a positive
    finite frame rate, is computed and is not negative. *)
Lemma timecode_frame_nonneg (secs rate : float) :
  is_float secs = true -> is_finite secs = true -> fleb fzero secs = true ->
  is_float rate = true -> is_finite rate = true -> fltb fzero rate = true ->
  exists frame, timecode_frame secs rate = Ok frame /\ 0 <= frame.
Proof.
  intros Hv Hf H0 Hvr Hfr Hr.
  destruct rate as [s | s | | s my ey]; try discriminate.
  destruct s; [discriminate |].
  unfold timecode_frame.
  destruct (float_rem1_nonneg secs Hv Hf H0) as [-> | [mx [ex [-> [H1 H2]]]]].
  - exists 0. split; [reflexivity | lia].
  - destruct (fmul_fraction mx ex my ey H1 H2 Hvr) as [-> | [m [e ->]]].
    + exists 0. split; [reflexivity | lia].
    + exists (Z.shiftl (Zpos m) e). split; [reflexivity |].
      apply Z.shiftl_nonneg. lia.
Qed.

Lemma fltb_finite (x : float) (mB : positive) (eB : Z) :
  fltb x (S754_finite false mB eB) = true -> fleb fzero x = true ->
  is_finite x = true.
Proof.
  destruct x as [s | s | | s m e]; try reflexivity; try discriminate.
  destruct s; discriminate.
Qed.





(** An instant in range is rendered. *)
Lemma renderable_timecode (secs rate : float) :
  renderable secs rate = true -> exists s, timecode secs rate = Ok s.
Proof.
  unfold renderable. rewrite !andb_true_iff.
  intros [[[[[Hv H0] Hlt] Hvr] Hfr] Hr].
  change (float_of_Z (86400 * 1000000000))
    with (S754_finite false 5529600000000000 (- (6))) in Hlt.
  pose proof (fltb_finite _ _ _ Hlt H0) as Hf.
  destruct (int_of_float_below secs _ 6 86400000000000 Hv H0 Hlt)
    as [n [Hn Hrange]]; [lia | reflexivity | simpl; lia |].
  destruct (timecode_frame_nonneg secs rate Hv Hf H0 Hvr Hfr Hr)
    as [frame [Hframe _]].
  assert (Hd : 0 <= n / 86400 < 1000000000).
  { split; [apply Z.div_pos; lia | apply Z.div_lt_upper_bound; lia]. }
  unfold timecode, timecode_hms, timedelta_of_seconds.
  rewrite Hn. cbn [rbind].
  destruct (Z.gtb_spec (Z.abs (n / 86400)) 999999999); [lia |].
  cbn [rbind]. rewrite Hframe. cbn [rbind]. eexists. reflexivity.
Qed.



(** C10. Below one day the whole seconds render as [H:MM:SS]: for a float
    from 0 up to but not including 86400, the duration has no days and its
    text is hours, two-digit minutes and two-digit seconds, which is how
    every timecode of that instant begins.  From 86400 seconds on every
    timecode returned carries a day component and is not of the shape
    [H:MM:SS:FF], and a timecode is returned up to the largest duration of
    the library, at any finite positive frame rate; at 86400 seconds and
    30 frames per second it is ["1 day, 0:00:00:00"]. *)
Theorem C10_day_component :
  (forall secs,
      is_float secs = true ->
      fleb fzero secs = true ->
      fltb secs (float_of_Z 86400) = true ->
      exists n,
        int_of_float secs = Ok n /\ 0 <= n < 86400 /\
        timecode_hms secs
        = Ok {| days := 0; seconds := n; microseconds := 0 |} /\
        timedelta_str {| days := 0; seconds := n; microseconds := 0 |}
        = hms_of_seconds n /\
        hms_shape (hms_of_seconds n) = true /\
        forall rate s,
          timecode secs rate = Ok s ->
          exists frame, s = hms_of_seconds n ++ ":" ++ format_int0 2 frame) /\
  (forall secs rate s,
      is_float secs = true ->
      fleb (float_of_Z 86400) secs = true ->
      timecode secs rate = Ok s ->
      day_component s = true /\ hmsf_shape s = false) /\
  (forall secs rate,
      is_float secs = true ->
      fleb (float_of_Z 86400) secs = true ->
      fltb secs (float_of_Z (86400 * 1000000000)) = true ->
      is_float rate = true -> is_finite rate = true ->
      fltb fzero rate = true ->
      exists s,
        timecode secs rate = Ok s /\
        day_component s = true /\ hmsf_shape s = false) /\
  timecode (float_of_Z 86400) (float_of_Z 30) = Ok "1 day, 0:00:00:00".
Proof.
  assert (Hlarge : forall secs rate s,
             is_float secs = true ->
             fleb (float_of_Z 86400) secs = true ->
             timecode secs rate = Ok s ->
             day_component s = true /\ hmsf_shape s = false).
  { intros secs rate s Hv Hle Hs.
    change (float_of_Z 86400)
      with (S754_finite false 5937362789990400 (- (36))) in Hle.
    destruct (timecode_ok _ _ _ Hs) as [n [frame [Hn [Hd [_ ->]]]]].
    assert (Hge : 86400 <= n).
    { apply (int_of_float_above secs _ 36 86400 n Hv Hle);
        [lia | reflexivity | simpl; lia | exact Hn]. }
    assert (Hday : 1 <= n / 86400)
      by (apply Z.div_le_lower_bound; lia).
    assert (Hc : day_component
                   (timedelta_str {| days := n / 86400;
                                     seconds := n mod 86400;
                                     microseconds := 0 |}
                    ++ ":" ++ format_int0 2 frame) = true).
    { destruct (timedelta_str_days
                  {| days := n / 86400; seconds := n mod 86400;
                     microseconds := 0 |}) as [b Hb];
        [simpl; lia | reflexivity |].
      rewrite Hb. apply contains_iff.
      exists (str_int (n / 86400)), (b ++ ":" ++ format_int0 2 frame).
      cbn [days]. now rewrite !append_assoc. }
    split; [exact Hc | now apply day_component_not_hmsf]. }
  split; [| split; [| split; [| reflexivity]]].
  - intros secs Hv H0 Hlt.
    change (float_of_Z 86400)
      with (S754_finite false 5937362789990400 (- (36))) in Hlt.
    destruct (int_of_float_below secs _ 36 86400 Hv H0 Hlt)
      as [n [Hn Hr]]; [lia | reflexivity | simpl; lia |].
    exists n. split; [exact Hn |]. split; [exact Hr |].
    assert (Hh : timecode_hms secs
                 = Ok {| days := 0; seconds := n; microseconds := 0 |}).
    { unfold timecode_hms. rewrite Hn. simpl. now apply timedelta_small. }
    split; [exact Hh |].
    split; [apply timedelta_str_small |].
    split; [now apply hms_shape_small |].
    intros rate s Hs. unfold timecode in Hs. rewrite Hh in Hs. simpl in Hs.
    destruct (timecode_frame secs rate) as [frame|x]; [| discriminate].
    simpl in Hs. injection Hs as <-. exists frame.
    now rewrite timedelta_str_small.
  - intros secs rate s Hv Hle Hs. exact (Hlarge secs rate s Hv Hle Hs).
  - intros secs rate Hv Hle Hlt Hvr Hfr Hr.
    pose proof Hle as H0.
    change (float_of_Z 86400)
      with (S754_finite false 5937362789990400 (- (36))) in H0.
    apply fleb_nonneg in H0.
    destruct (renderable_timecode secs rate) as [s Hs].
    { unfold renderable. now rewrite Hv, H0, Hlt, Hvr, Hfr, Hr. }
    exists s. split; [exact Hs |].
    exact (Hlarge secs rate s Hv Hle Hs).
Qed.

Lemma C10_witness :
  (exists frame,
      "0:01:30:15" = hms_of_seconds 90 ++ ":" ++ format_int0 2 frame) /\
  day_component "2 days, 7:33:20:00" = true /\
  hmsf_shape "2 days, 7:33:20:00" = false.
Proof.
  split.
  - destruct (proj1 C10_day_component (float_of_dyadic 181 (-1)))
      as [n [Hn [_ [_ [_ [_ H]]]]]]; try reflexivity.
    injection Hn as <-.
    apply (H (float_of_Z 30)). reflexivity.
  - apply (proj1 (proj2 C10_day_component)
             (float_of_Z 200000) (float_of_Z 30)); reflexivity.
Defined.

(** ** The edit-list writer *)

Lemma rmap_app {A B : Type} (f : A -> outcome B) (xs ys : list A)
    (us vs : list B) :
  rmap f xs = Ok us -> rmap f ys = Ok vs -> rmap f (xs ++ ys) = Ok (us ++ vs)%list.
Proof.
  revert us. induction xs as [|x xs IH]; intros us Hx Hy; simpl in *.
  - injection Hx as <-. exact Hy.
  - destruct (f x) as [y|e]; simpl in *; [| discriminate].
    destruct (rmap f xs) as [ws|e]; simpl in *; [| discriminate].
    injection Hx as <-. now rewrite (IH ws eq_refl Hy).
Qed.

Lemma rmap_length {A B : Type} (f : A -> outcome B) (xs : list A)
    (us : list B) :
  rmap f xs = Ok us -> List.length us = List.length xs.
Proof.
  revert us. induction xs as [|x xs IH]; intros us H; simpl in *.
  - now injection H as <-.
  - destruct (f x) as [y|e]; simpl in *; [| discriminate].
    destruct (rmap f xs) as [ws|e]; simpl in *; [| discriminate].
    injection H as <-. simpl. now rewrite (IH ws eq_refl).
Qed.

(** One turn of the inner loop writes what [emit] writes for the record
    planned for it. *)
Lemma write_hit_emit (v : Video) (h : Keyword) (counter : Z) (t : float)
    (f : string) :
  write_hit v (basename (vidpath v)) (counter, t) h f
  = match emit (plan_from counter t [(v, h)]) f with
    | (f', Ok _) => (f', Ok (cursor_after counter t [(v, h)]))
    | (f', Raise e) => (f', Raise e)
    end.
Proof.
  cbn [plan_from emit cursor_after].
  unfold write_hit, edit_text, source_in_timecode, source_out_timecode,
    program_in_timecode, program_out_timecode, io_bind, io_assert, io_lift,
    io_write, io_ret.
  simpl. destruct (counter <? 1000); [| reflexivity].
  destruct (timecode (start h) (fps v)); simpl; [| reflexivity].
  destruct (timecode (end_ h) (fps v)); simpl; [| reflexivity].
  destruct (timecode t (fps v)); simpl; [| reflexivity].
  destruct (timecode (fadd t (fsub (end_ h) (start h))) (fps v)); reflexivity.
Qed.

Lemma emit_app (p1 p2 : list Edit) (f : string) :
  emit (p1 ++ p2) f
  = match emit p1 f with
    | (f', Ok _) => emit p2 f'
    | (f', Raise e) => (f', Raise e)
    end.
Proof.
  revert f. induction p1 as [|e p1 IH]; intros f; [reflexivity |].
  cbn [emit app]. unfold io_bind.
  destruct (io_assert (ed_seq e <? 1000) limit_message f) as [f1 [[]|x]];
    [| reflexivity].
  destruct (io_lift (edit_text e) f1) as [f2 [s|x]]; [| reflexivity].
  destruct (io_write s f2) as [f3 [[]|x]]; [| reflexivity].
  apply IH.
Qed.

Lemma plan_from_app (j1 j2 : list (Video * Keyword)) (counter : Z) (t : float) :
  plan_from counter t (j1 ++ j2)
  = (plan_from counter t j1
     ++ plan_from (fst (cursor_after counter t j1))
          (snd (cursor_after counter t j1)) j2)%list.
Proof.
  revert counter t. induction j1 as [|[v h] j1 IH]; intros counter t; simpl.
  - reflexivity.
  - now rewrite IH.
Qed.

Lemma cursor_after_app (j1 j2 : list (Video * Keyword)) (counter : Z)
    (t : float) :
  cursor_after counter t (j1 ++ j2)
  = cursor_after (fst (cursor_after counter t j1))
      (snd (cursor_after counter t j1)) j2.
Proof.
  revert counter t. induction j1 as [|[v h] j1 IH]; intros counter t; simpl.
  - reflexivity.
  - now rewrite IH.
Qed.

Lemma write_hits_emit (v : Video) (hs : list Keyword) (counter : Z) (t : float)
    (f : string) :
  io_for (write_hit v (basename (vidpath v))) hs (counter, t) f
  = match emit (plan_from counter t (map (pair v) hs)) f with
    | (f', Ok _) => (f', Ok (cursor_after counter t (map (pair v) hs)))
    | (f', Raise e) => (f', Raise e)
    end.
Proof.
  revert counter t f. induction hs as [|h hs IH]; intros counter t f.
  - reflexivity.
  - cbn [io_for map]. unfold io_bind at 1. rewrite write_hit_emit.
    change ((v, h) :: map (pair v) hs)
      with ([(v, h)] ++ map (pair v) hs)%list.
    rewrite plan_from_app, emit_app, cursor_after_app.
    destruct (emit (plan_from counter t [(v, h)]) f) as [f1 [[]|x]];
      [| reflexivity].
    simpl. apply IH.
Qed.

Lemma write_videos_emit (result : list Video) (counter : Z) (t : float)
    (f : string) :
  io_for write_video result (counter, t) f
  = match emit (plan_from counter t (edl_jobs result)) f with
    | (f', Ok _) => (f', Ok (cursor_after counter t (edl_jobs result)))
    | (f', Raise e) => (f', Raise e)
    end.
Proof.
  revert counter t f. induction result as [|v vs IH]; intros counter t f.
  - reflexivity.
  - cbn [io_for]. unfold io_bind at 1. unfold write_video at 1.
    rewrite write_hits_emit. unfold edl_jobs. cbn [flat_map].
    fold (edl_jobs vs).
    rewrite plan_from_app, emit_app, cursor_after_app.
    destruct (emit (plan_from counter t (map (pair v) (hits v))) f)
      as [f1 [[]|x]]; [| reflexivity].
    destruct (cursor_after counter t (map (pair v) (hits v))) as [c1 t1].
    simpl. apply IH.
Qed.

(** [write_edl] writes the header and then the records of the plan. *)
Lemma write_edl_emit (result : list Video) (title f : string) :
  write_edl result title f = emit (edl_plan result) (f ++ edl_header title).
Proof.
  unfold write_edl, io_bind, io_write, edl_plan, edl_header.
  rewrite write_videos_emit, !append_assoc.
  destruct (emit _ _) as [f' [[]|x]]; reflexivity.
Qed.

Lemma text_of_all_app (us vs : list string) :
  text_of_all (us ++ vs) = text_of_all us ++ text_of_all vs.
Proof.
  induction us as [|u us IH]; simpl; [reflexivity |].
  now rewrite IH, append_assoc.
Qed.

Lemma plan_seq (jobs : list (Video * Keyword)) (counter : Z) (t : float) :
  map ed_seq (plan_from counter t jobs)
  = numbers_from counter (List.length jobs).
Proof.
  revert counter t. induction jobs as [|[v h] jobs IH]; intros counter t.
  - reflexivity.
  - simpl. now rewrite IH.
Qed.

Lemma plan_length (jobs : list (Video * Keyword)) (counter : Z) (t : float) :
  List.length (plan_from counter t jobs) = List.length jobs.
Proof.
  revert counter t. induction jobs as [|[v h] jobs IH]; intros counter t.
  - reflexivity.
  - simpl. now rewrite IH.
Qed.

Lemma numbers_from_bounds (n : nat) (k z : Z) :
  In z (numbers_from k n) -> k <= z < k + Z.of_nat n.
Proof.
  revert k. induction n as [|n IH]; intros k; simpl; [tauto |].
  intros [<- | H]; [lia |]. apply IH in H. lia.
Qed.

Lemma firstn_numbers (n m : nat) (k : Z) :
  (n <= m)%nat -> firstn n (numbers_from k m) = numbers_from k n.
Proof.
  revert m k. induction n as [|n IH]; intros m k H; [reflexivity |].
  destruct m as [|m]; [lia |]. simpl. rewrite IH by lia. reflexivity.
Qed.

Lemma skipn_numbers (n m : nat) (k : Z) :
  skipn n (numbers_from k m) = numbers_from (k + Z.of_nat n) (m - n).
Proof.
  revert m k. induction n as [|n IH]; intros m k.
  - simpl. rewrite Z.add_0_r, Nat.sub_0_r. reflexivity.
  - destruct m as [|m]; [reflexivity |].
    cbn [numbers_from skipn Nat.sub]. rewrite IH. f_equal. lia.
Qed.

(** A plan whose records can be rendered and are numbered below 1000 is
    written whole. *)
Lemma emit_all (plan : list Edit) (texts : list string) (f : string) :
  rmap edit_text plan = Ok texts ->
  (forall z, In z (map ed_seq plan) -> z < 1000) ->
  emit plan f = (f ++ text_of_all texts, Ok tt).
Proof.
  revert texts f. induction plan as [|e plan IH]; intros texts f Ht Hs.
  - simpl in Ht. injection Ht as <-. simpl. now rewrite append_nil_r.
  - simpl in Ht. destruct (edit_text e) as [s|x] eqn:Es; simpl in Ht;
      [| discriminate].
    destruct (rmap edit_text plan) as [ws|x] eqn:Ews; simpl in Ht;
      [| discriminate].
    injection Ht as <-.
    assert (He : (ed_seq e <? 1000) = true)
      by (apply Z.ltb_lt, Hs; now left).
    cbn [emit]. unfold io_bind, io_assert, io_lift, io_write.
    rewrite He, Es. rewrite (IH ws (f ++ s) eq_refl).
    + simpl. now rewrite append_assoc.
    + intros z Hz. apply Hs. now right.
Qed.

(** A record numbered 1000 or more stops the writer before it writes. *)
Lemma emit_limit (e : Edit) (rest : list Edit) (f : string) :
  1000 <= ed_seq e ->
  emit (e :: rest) f = (f, Raise (AssertionError limit_message)).
Proof.
  intros H. cbn [emit]. unfold io_bind, io_assert.
  destruct (ed_seq e <? 1000) eqn:E; [apply Z.ltb_lt in E; lia | reflexivity].
Qed.

(** What [emit] leaves in the file is always the text of a rendered prefix
    of the plan, and it fails exactly when the prefix is proper. *)
Lemma emit_prefix (plan : list Edit) (f : string) :
  exists done rest texts,
    plan = (done ++ rest)%list /\
    rmap edit_text done = Ok texts /\
    fst (emit plan f) = f ++ text_of_all texts /\
    ((rest = [] /\ snd (emit plan f) = Ok tt) \/
     (rest <> [] /\ exists x, snd (emit plan f) = Raise x)).
Proof.
  revert f. induction plan as [|e plan IH]; intros f.
  - exists [], [], []. simpl. rewrite append_nil_r.
    repeat split; try reflexivity. left. split; reflexivity.
  - cbn [emit]. unfold io_bind, io_assert, io_lift, io_write.
    destruct (ed_seq e <? 1000).
    + destruct (edit_text e) as [s|x] eqn:Es.
      * destruct (IH (f ++ s)) as [done [rest [texts [Hp [Ht [Hf Ho]]]]]].
        exists (e :: done), rest, (s :: texts).
        split; [simpl; now rewrite Hp |].
        split; [simpl; now rewrite Es, Ht |].
        split; [rewrite Hf; simpl; now rewrite append_assoc | exact Ho].
      * exists [], (e :: plan), []. simpl. rewrite append_nil_r.
        repeat split; try reflexivity. right. split; [discriminate |].
        now exists x.
    + exists [], (e :: plan), []. simpl. rewrite append_nil_r.
      repeat split; try reflexivity. right. split; [discriminate |].
      now exists (AssertionError limit_message).
Qed.

Lemma edl_plan_seq (result : list Video) :
  map ed_seq (edl_plan result) = numbers_from 1 (hit_count result).
Proof. apply plan_seq. Qed.

(** The number of hits of a corpus is the sum over its videos. *)
Lemma hit_count_sum (result : list Video) :
  hit_count result = list_sum (map (fun v => List.length (hits v)) result).
Proof.
  unfold hit_count, edl_jobs. induction result as [|v vs IH]; simpl.
  - reflexivity.
  - now rewrite List.length_app, List.length_map, IH.
Qed.


(** 1000 hits or more. *)
Lemma write_edl_over_limit (result : list Video) (title f : string)
    (texts : list string) :
  (1000 <= hit_count result)%nat ->
  rmap edit_text (firstn 999 (edl_plan result)) = Ok texts ->
  write_edl result title f
  = (f ++ edl_header title ++ text_of_all texts,
     Raise (AssertionError limit_message)) /\
  map ed_seq (firstn 999 (edl_plan result)) = numbers_from 1 999 /\
  List.length texts = 999%nat.
Proof.
  intros Hn Ht.
  pose proof (edl_plan_seq result) as Hseq.
  assert (H1 : map ed_seq (firstn 999 (edl_plan result))
               = numbers_from 1 999).
  { rewrite <- firstn_map, Hseq. apply firstn_numbers. lia. }
  assert (H2 : map ed_seq (skipn 999 (edl_plan result))
               = numbers_from 1000 (hit_count result - 999)).
  { rewrite <- skipn_map, Hseq, skipn_numbers. reflexivity. }
  split; [| split; [exact H1 |]].
  - rewrite write_edl_emit, <- (firstn_skipn 999 (edl_plan result)),
      emit_app, (emit_all _ texts _ Ht).
    + destruct (skipn 999 (edl_plan result)) as [|e rest].
      * destruct (hit_count result - 999)%nat eqn:E; [lia | discriminate].
      * rewrite emit_limit; [now rewrite append_assoc |].
        destruct (hit_count result - 999)%nat; [discriminate |].
        simpl in H2. injection H2 as -> _. lia.
    + intros z Hz. rewrite H1 in Hz. apply numbers_from_bounds in Hz. lia.
  - apply rmap_length in Ht. rewrite Ht, length_firstn.
    unfold edl_plan. rewrite plan_length. fold (hit_count result). lia.
Qed.




(** ** The program timeline *)

Lemma plan_adjacent (jobs : list (Video * Keyword)) (counter : Z) (t : float)
    (i : nat) (e1 e2 : Edit) :
  nth_error (plan_from counter t jobs) i = Some e1 ->
  nth_error (plan_from counter t jobs) (S i) = Some e2 ->
  ed_program_out e1 = ed_program_in e2 /\ ed_seq e2 = ed_seq e1 + 1.
Proof.
  revert counter t i. induction jobs as [|[v h] jobs IH]; intros counter t i.
  - destruct i; discriminate.
  - destruct i as [|i].
    + simpl. intros H1 H2. injection H1 as <-.
      destruct jobs as [|[v' h'] jobs]; [discriminate |].
      simpl in H2. injection H2 as <-. simpl. auto.
    + cbn [plan_from nth_error]. apply IH.
Qed.

Lemma plan_program_out (jobs : list (Video * Keyword)) (counter : Z)
    (t : float) (e : Edit) :
  In e (plan_from counter t jobs) ->
  ed_program_out e
  = fadd (ed_program_in e) (fsub (ed_source_out e) (ed_source_in e)).
Proof.
  revert counter t. induction jobs as [|[v h] jobs IH]; intros counter t.
  - intros [].
  - simpl. intros [<- | H]; [reflexivity | eapply IH, H].
Qed.

Lemma plan_fps (jobs : list (Video * Keyword)) (counter : Z) (t : float) :
  map ed_fps (plan_from counter t jobs) = map (fun j => fps (fst j)) jobs.
Proof.
  revert counter t. induction jobs as [|[v h] jobs IH]; intros counter t.
  - reflexivity.
  - simpl. now rewrite IH.
Qed.

(** C3, as amended.  [write_edl] writes the records of the plan.  In the
    plan the program-out instant of a record is the program-in instant of
    the next one, the same float, and it is the program-in instant plus the
    duration of the hit; the first record starts at zero.  The two
    timecodes of adjacent records are the same string when the two records
    have the same frame rate, as records of one video have. *)
Theorem C3_program_timeline :
  (forall result title f,
      write_edl result title f
      = emit (edl_plan result) (f ++ edl_header title)) /\
  (forall result i e1 e2,
      nth_error (edl_plan result) i = Some e1 ->
      nth_error (edl_plan result) (S i) = Some e2 ->
      ed_program_out e1 = ed_program_in e2 /\
      (ed_fps e1 = ed_fps e2 ->
       program_out_timecode e1 = program_in_timecode e2)) /\
  (forall result e,
      In e (edl_plan result) ->
      ed_program_out e
      = fadd (ed_program_in e) (fsub (ed_source_out e) (ed_source_in e))) /\
  (forall result e,
      nth_error (edl_plan result) 0 = Some e -> ed_program_in e = fzero) /\
  (forall result,
      map ed_fps (edl_plan result)
      = map (fun j => fps (fst j)) (edl_jobs result)).
Proof.
  split; [exact write_edl_emit |].
  split.
  - intros result i e1 e2 H1 H2.
    destruct (plan_adjacent _ _ _ _ _ _ H1 H2) as [H _].
    split; [exact H |].
    intros Hf. unfold program_out_timecode, program_in_timecode.
    now rewrite H, Hf.
  - split; [intros result e; apply plan_program_out |].
    split; [| intros result; apply plan_fps].
    intros result e. unfold edl_plan.
    destruct (edl_jobs result) as [|[v h] jobs]; [discriminate |].
    simpl. intros H. now injection H as <-.
Qed.

Lemma C3_witness :
  program_out_timecode
    {| ed_seq := 1; ed_fps := float_of_Z 30; ed_clip := "abc=Title.mp4";
       ed_source_in := fzero; ed_source_out := fone;
       ed_program_in := fzero; ed_program_out := fadd fzero (fsub fone fzero) |}
  = program_in_timecode
      {| ed_seq := 1 + 1; ed_fps := float_of_Z 30; ed_clip := "abc=Title.mp4";
         ed_source_in := fzero; ed_source_out := fone;
         ed_program_in := fadd fzero (fsub fone fzero);
         ed_program_out :=
           fadd (fadd fzero (fsub fone fzero)) (fsub fone fzero) |}.
Proof.
  apply (proj1 (proj2 C3_program_timeline) (corpus_of_hits 2) 0%nat);
    reflexivity.
Defined.

(** C3 as stated fails.  The first record, of a video at 24 frames per
    second, ends at program timecode 0:00:00:12; the second, of a video at
    30 frames per second, starts at 0:00:00:15.  The second record lasts a
    hundredth of a second, and its program-in and program-out timecodes are
    the same. *)
Lemma C3_counterexample :
  map program_in_timecode (edl_plan corpus_24_30)
  = [Ok "0:00:00:00"; Ok "0:00:00:15"] /\
  map program_out_timecode (edl_plan corpus_24_30)
  = [Ok "0:00:00:12"; Ok "0:00:00:15"] /\
  ~ contiguous_timecodes (edl_plan corpus_24_30) /\
  ~ distinct_program_timecodes (edl_plan corpus_24_30).
Proof.
  split; [vm_compute; reflexivity |].
  split; [vm_compute; reflexivity |].
  split.
  - intros H.
    specialize (H 0%nat _ _ eq_refl eq_refl). vm_compute in H. discriminate H.
  - intros H.
    destruct (edl_plan corpus_24_30) as [|e1 [|e2 rest]] eqn:E;
      [discriminate | discriminate |].
    injection E as E1 E2 E3.
    apply (H e2); [right; now left | |]; subst e2.
    + vm_compute. reflexivity.
    + vm_compute. reflexivity.
Qed.

(** ** The output file *)

Lemma fs_store_same (fs : filesystem) (p content : string) :
  fs_store fs p content p = Some content.
Proof. unfold fs_store. now rewrite String.eqb_refl. Qed.

Lemma fs_store_other (fs : filesystem) (p q content : string) :
  q <> p -> fs_store fs p content q = fs q.
Proof.
  intros H. unfold fs_store. destruct (String.eqb q p) eqn:E; [| reflexivity].
  apply String.eqb_eq in E. contradiction.
Qed.

(** C5, as amended.  When the synthesis fails, the output file holds the
    header and the records written before the failure, a proper prefix of
    the records due; the other files are untouched. *)
Theorem C5_failed_synthesis_keeps_partial_text (fs fs' : filesystem)
    (edl_path : string) (result : list Video) (x : exn) :
  generate_edl fs edl_path result = (fs', Raise x) ->
  exists done rest texts,
    edl_plan result = (done ++ rest)%list /\ rest <> [] /\
    rmap edit_text done = Ok texts /\
    fs' edl_path = Some (edl_header "Supercut" ++ text_of_all texts) /\
    forall q, q <> edl_path -> fs' q = fs q.
Proof.
  unfold generate_edl. rewrite write_edl_emit.
  destruct (emit_prefix (edl_plan result) ("" ++ edl_header "Supercut"))
    as [done [rest [texts [Hp [Ht [Hf Ho]]]]]].
  destruct (emit (edl_plan result) ("" ++ edl_header "Supercut"))
    as [written r].
  simpl in Hf, Ho. intros H. injection H as <- ->.
  exists done, rest, texts.
  destruct Ho as [[_ Ho] | [Hr _]]; [discriminate |].
  split; [exact Hp |]. split; [exact Hr |]. split; [exact Ht |].
  split.
  - rewrite fs_store_same, Hf. reflexivity.
  - intros q Hq. now apply fs_store_other.
Qed.

Lemma generate_edl_over_limit (fs : filesystem) (edl_path : string)
    (result : list Video) (texts : list string) :
  (1000 <= hit_count result)%nat ->
  rmap edit_text (firstn 999 (edl_plan result)) = Ok texts ->
  generate_edl fs edl_path result
  = (fs_store fs edl_path (edl_header "Supercut" ++ text_of_all texts),
     Raise (AssertionError limit_message)).
Proof.
  intros Hn Ht. unfold generate_edl.
  destruct (write_edl_over_limit result "Supercut" "" texts Hn Ht) as [-> _].
  reflexivity.
Qed.

Lemma failed_1000 :
  generate_edl no_files "supercut.edl" (corpus_of_hits 1000)
  = (fs_store no_files "supercut.edl"
       (edl_header "Supercut"
        ++ text_of_all (texts_of (firstn 999 (edl_plan (corpus_of_hits 1000))))),
     Raise (AssertionError limit_message)).
Proof.
  apply generate_edl_over_limit.
  - apply Nat.leb_le. vm_compute. reflexivity.
  - vm_compute. reflexivity.
Qed.

Lemma C5_witness :
  exists done rest texts,
    edl_plan (corpus_of_hits 1000) = (done ++ rest)%list /\ rest <> [] /\
    rmap edit_text done = Ok texts /\
    fs_store no_files "supercut.edl"
      (edl_header "Supercut"
       ++ text_of_all (texts_of (firstn 999 (edl_plan (corpus_of_hits 1000)))))
      "supercut.edl"
    = Some (edl_header "Supercut" ++ text_of_all texts) /\
    forall q, q <> "supercut.edl" ->
      fs_store no_files "supercut.edl"
        (edl_header "Supercut"
         ++ text_of_all (texts_of (firstn 999 (edl_plan (corpus_of_hits 1000)))))
        q
      = no_files q.
Proof.
  apply (C5_failed_synthesis_keeps_partial_text no_files _ "supercut.edl"
           (corpus_of_hits 1000) (AssertionError limit_message)).
  exact failed_1000.
Defined.

(** C5 as stated fails.  With 1000 hits the synthesis raises the assertion
    error of the edit limit, and the output file, which did not exist, then
    holds the header and 999 records. *)
Lemma C5_counterexample :
  snd (generate_edl no_files "supercut.edl" (corpus_of_hits 1000))
  = Raise (AssertionError limit_message) /\
  fst (generate_edl no_files "supercut.edl" (corpus_of_hits 1000))
    "supercut.edl"
  = Some (edl_header "Supercut"
          ++ text_of_all (texts_of (firstn 999 (edl_plan (corpus_of_hits 1000)))))
  /\
  ~ leaves_no_partial_document no_files "supercut.edl" (corpus_of_hits 1000).
Proof.
  pose proof failed_1000 as H. revert H.
  generalize (text_of_all (texts_of (firstn 999 (edl_plan (corpus_of_hits 1000))))).
  intros T H.
  rewrite H. cbn [fst snd]. rewrite fs_store_same.
  split; [reflexivity |]. split; [reflexivity |].
  intros Hc. destruct (Hc _ _ H) as [E | E];
    rewrite fs_store_same in E; discriminate E.
Qed.

(** * Further properties *)

(** ** The lines of a cue *)

Lemma split_not_nil (sep : ascii) (s : string) : PyStr.split sep s <> [].
Proof.
  destruct s as [|c s]; simpl; [discriminate |].
  destruct (Ascii.eqb c sep); [discriminate |].
  destruct (PyStr.split sep s); discriminate.
Qed.

Lemma join_cons (sep : string) (x : string) (xs : list string) :
  xs <> [] -> PyStr.join sep (x :: xs) = x ++ sep ++ PyStr.join sep xs.
Proof. destruct xs; [contradiction | reflexivity]. Qed.

(** [sep.join(s.split(sep)) == s] for a one-character separator. *)
Lemma join_split (sep : ascii) (s : string) :
  PyStr.join (String sep "") (PyStr.split sep s) = s.
Proof.
  induction s as [|c s IH]; [reflexivity |].
  cbn [PyStr.split]. destruct (Ascii.eqb_spec c sep) as [-> | Hc].
  - rewrite join_cons by apply split_not_nil. rewrite IH. reflexivity.
  - pose proof (split_not_nil sep s) as Hn.
    destruct (PyStr.split sep s) as [|l ls]; [contradiction |].
    destruct ls as [|l' ls].
    + simpl in *. now rewrite IH.
    + rewrite join_cons in IH by discriminate.
      rewrite join_cons by discriminate. rewrite <- IH. reflexivity.
Qed.

(** A field of a split holds no separator. *)
Lemma split_fields_no_sep (sep : ascii) (s l : string) :
  In l (PyStr.split sep s) -> PyStr.contains (String sep "") l = false.
Proof.
  revert l. induction s as [|c s IH]; intros l; cbn [PyStr.split].
  - intros [<- | []]. reflexivity.
  - destruct (Ascii.eqb c sep) eqn:E.
    + intros [<- | H]; [reflexivity | now apply IH].
    + destruct (PyStr.split sep s) as [|l0 ls].
      * intros [<- | []]. simpl. now rewrite Ascii.eqb_sym, E.
      * intros [<- | H].
        -- simpl. rewrite Ascii.eqb_sym, E. simpl.
           specialize (IH l0 (or_introl eq_refl)).
           destruct l0; simpl in *; [reflexivity | exact IH].
        -- apply IH. now right.
Qed.

(** A field of a split is a piece of the string. *)
Lemma split_fields_occur (sep : ascii) (s l : string) :
  In l (PyStr.split sep s) -> occurs_in l s.
Proof.
  revert l. induction s as [|c s IH]; intros l; cbn [PyStr.split].
  - intros [<- | []]. now exists "", "".
  - pose proof (split_hd sep s) as [_ Hhd].
    destruct (Ascii.eqb c sep) eqn:E.
    + intros [<- | H]; [now exists "", (String c s) |].
      destruct (IH l H) as [a [b ->]]. now exists (String c a), b.
    + destruct (PyStr.split sep s) as [|l0 ls] eqn:Es.
      * intros [<- | []]. simpl in Hhd.
        destruct Hhd as [-> | [rest ->]]; [now exists "", "" |].
        now exists "", (String sep rest).
      * intros [<- | H].
        -- simpl in Hhd. destruct Hhd as [-> | [rest ->]].
           ++ exists "", "". simpl. now rewrite append_nil_r.
           ++ now exists "", (String sep rest).
        -- destruct (IH l (or_intror H)) as [a [b ->]].
           now exists (String c a), b.
Qed.

Lemma occurs_in_trans (a b c : string) :
  occurs_in a b -> occurs_in b c -> occurs_in a c.
Proof.
  intros [x [y ->]] [u [v ->]]. exists (u ++ x), (y ++ v).
  now rewrite !append_assoc.
Qed.

Lemma lstrip_suffix (s : string) : exists a, s = a ++ PyStr.lstrip s.
Proof.
  induction s as [|c s [a IH]]; [now exists "" |].
  simpl. destruct (PyStr.isspace c).
  - exists (String c a). simpl. now rewrite <- IH.
  - now exists "".
Qed.

Lemma rstrip_prefix (s : string) : exists b, s = PyStr.rstrip s ++ b.
Proof.
  induction s as [|c s [b IH]]; [now exists "" |].
  simpl. destruct (PyStr.rstrip s) as [|x r] eqn:E.
  - destruct (PyStr.isspace c).
    + exists (String c s). reflexivity.
    + exists b. simpl in *. now rewrite <- IH.
  - exists b. simpl in *. now rewrite <- IH.
Qed.

Lemma strip_occurs (s : string) : occurs_in (PyStr.strip s) s.
Proof.
  unfold PyStr.strip.
  destruct (lstrip_suffix s) as [a Ha].
  destruct (rstrip_prefix (PyStr.lstrip s)) as [b Hb].
  exists a, b. rewrite <- Hb. exact Ha.
Qed.

(** X1. The physical lines of a cue hold no line feed and, joined by line
    feeds, give back the stripped and lowered text of the cue. *)
Theorem X1_lines_of_join (c : Caption) :
  PyStr.join PyStr.nl (lines_of c) = PyStr.lower (PyStr.strip (text c)) /\
  lines_of c <> [] /\
  forall l, In l (lines_of c) -> PyStr.contains PyStr.nl l = false.
Proof.
  split; [apply join_split |].
  split; [apply split_not_nil |].
  intros l. apply split_fields_no_sep.
Qed.

(** ** Bounds and suppression *)

Lemma hits_of_line_length (keywords : list string) (c : Caption) (l : string) :
  (List.length (hits_of_line keywords c l) <= List.length keywords)%nat.
Proof. unfold hits_of_line. rewrite length_map. apply filter_length_le. Qed.

Lemma accepted_lines_length (prev : string) (ls : list string) :
  (List.length (accepted_lines prev ls) <= List.length ls)%nat.
Proof.
  revert prev. induction ls as [|l ls IH]; intros prev; simpl; [lia |].
  destruct (String.eqb l prev); simpl.
  - specialize (IH prev). lia.
  - specialize (IH l). lia.
Qed.

Lemma flat_map_length_le {A B : Type} (f : A -> list B) (n : nat)
    (xs : list A) :
  (forall x, (List.length (f x) <= n)%nat) ->
  (List.length (flat_map f xs) <= List.length xs * n)%nat.
Proof.
  intros H. induction xs as [|x xs IH]; simpl; [lia |].
  rewrite List.length_app. specialize (H x). lia.
Qed.

Lemma cue_hits_length (keywords : list string) (prev : string) (c : Caption) :
  (List.length (cue_hits keywords prev c)
   <= List.length (lines_of c) * List.length keywords)%nat.
Proof.
  unfold cue_hits.
  eapply Nat.le_trans;
    [apply flat_map_length_le, hits_of_line_length |].
  apply Nat.mul_le_mono_r, accepted_lines_length.
Qed.

(** X2. The matcher yields at most one hit per physical line and keyword:
    no more hits than lines times keywords; so a track without cues and a
    search without keywords yield nothing. *)
Theorem X2_hit_count_bound (read : string -> list Caption) (vttfile : string)
    (keywords : list string) :
  (List.length (find_keywords read vttfile keywords)
   <= physical_line_count (read vttfile) * List.length keywords)%nat.
Proof.
  rewrite find_keywords_spec. unfold physical_line_count.
  generalize "" as prev. induction (read vttfile) as [|c cs IH]; intros prev.
  - simpl. lia.
  - cbn [matcher_hits map list_sum fold_right]. rewrite List.length_app.
    pose proof (cue_hits_length keywords prev c).
    specialize (IH (state_after prev (lines_of c))).
    fold (list_sum (map (fun c0 => List.length (lines_of c0)) cs)) in *. lia.
Qed.

Lemma scan_lines_all_equal (keywords : list string) (c : Caption)
    (ls : list string) (st : string * list Keyword) :
  Forall (fun l => l = fst st) ls ->
  fold_left (scan_line keywords c) ls st = st.
Proof.
  induction 1 as [|l ls Hl _ IH]; [reflexivity |].
  cbn [fold_left]. destruct st as [prev ys]. simpl in Hl. subst l.
  unfold scan_line at 2. rewrite String.eqb_refl. exact IH.
Qed.

(** X3. A cue all of whose lines equal the most recently accepted line
    changes nothing: it yields no hit and leaves the state as it was.  In
    particular a cue that repeats the one line of the cue before it is
    silent. *)
Theorem X3_repeated_cue_is_silent (keywords : list string)
    (before : list Caption) (c : Caption) :
  Forall (fun l => l = fst (scan_captions keywords "" before)) (lines_of c) ->
  scan_caption keywords (scan_captions keywords "" before) c
  = scan_captions keywords "" before /\
  yielded_by keywords before c = [].
Proof.
  intros H. split.
  - now apply scan_lines_all_equal.
  - unfold yielded_by, scan_caption.
    rewrite scan_lines_all_equal; [reflexivity | exact H].
Qed.

Lemma X3_witness :
  scan_caption ["cat"] (scan_captions ["cat"] "" [cue "a cat"]) (cue "A Cat ")
  = scan_captions ["cat"] "" [cue "a cat"] /\
  yielded_by ["cat"] [cue "a cat"] (cue "A Cat ") = [].
Proof.
  apply X3_repeated_cue_is_silent. repeat constructor.
Defined.

(** ** Completeness *)

Lemma last_cons {A : Type} (x : A) (xs : list A) (d : A) :
  last (x :: xs) d = last xs x.
Proof.
  revert x d. induction xs as [|y ys IH]; intros x d; [reflexivity |].
  change (last (x :: y :: ys) d) with (last (y :: ys) d).
  rewrite IH. symmetry. apply IH.
Qed.

Lemma accepted_lines_no_repeats (prev : string) (ls : list string) :
  no_repeats prev ls = true ->
  accepted_lines prev ls = ls /\ state_after prev ls = last ls prev.
Proof.
  revert prev. induction ls as [|l ls IH]; intros prev; simpl.
  - auto.
  - rewrite andb_true_iff, negb_true_iff. intros [-> H].
    destruct (IH l H) as [-> ->]. split; [reflexivity |].
    symmetry. apply last_cons.
Qed.

Lemma no_repeats_app (prev : string) (xs ys : list string) :
  no_repeats prev (xs ++ ys)
  = no_repeats prev xs && no_repeats (last xs prev) ys.
Proof.
  revert prev. induction xs as [|x xs IH]; intros prev; [reflexivity |].
  cbn [app no_repeats]. rewrite IH, andb_assoc, last_cons. reflexivity.
Qed.

Lemma matcher_hits_no_repeats (keywords : list string) (cs : list Caption)
    (prev : string) :
  no_repeats prev (flat_map lines_of cs) = true ->
  matcher_hits keywords prev cs = all_line_hits keywords cs.
Proof.
  revert prev. induction cs as [|c cs IH]; intros prev; [reflexivity |].
  cbn [flat_map]. rewrite no_repeats_app, andb_true_iff. intros [H1 H2].
  destruct (accepted_lines_no_repeats _ _ H1) as [Ha Hs].
  cbn [matcher_hits]. unfold cue_hits. rewrite Ha, Hs, (IH _ H2).
  reflexivity.
Qed.

(** X4. When no physical line of the track equals the line before it, and
    the first is not empty, nothing is suppressed: the matcher yields, for
    every line of every cue in order, a hit for each keyword that occurs in
    the line. *)
Theorem X4_no_repeats_all_scanned (read : string -> list Caption)
    (vttfile : string) (keywords : list string) :
  no_repeats "" (flat_map lines_of (read vttfile)) = true ->
  find_keywords read vttfile keywords
  = flat_map
      (fun c =>
         flat_map
           (fun line =>
              map (fun w => {| word := w; start := _start c;
                               end_ := _end c |})
                  (filter (fun w => PyStr.contains w line) keywords))
           (lines_of c))
      (read vttfile).
Proof.
  intros H. rewrite find_keywords_spec.
  now rewrite (matcher_hits_no_repeats keywords _ "" H).
Qed.

Lemma X4_witness :
  find_keywords (fun _ => [cue "the cat"; cue "sat"; cue "the cat"]) "x.vtt"
    ["cat"]
  = [ {| word := "cat"; start := fzero; end_ := fone |};
      {| word := "cat"; start := fzero; end_ := fone |} ].
Proof.
  rewrite X4_no_repeats_all_scanned; reflexivity.
Defined.

(** ** Soundness *)

(** X5. Every hit is backed by the track: its keyword is one of the
    keywords searched, and some cue of the track has the hit's timestamps
    and a text in which a piece occurs that, lowered, is the keyword. *)
Theorem X5_hits_are_backed (read : string -> list Caption) (vttfile : string)
    (keywords : list string) (h : Keyword) :
  In h (find_keywords read vttfile keywords) ->
  In (word h) keywords /\
  exists c,
    In c (read vttfile) /\ start h = _start c /\ end_ h = _end c /\
    exists u, occurs_in u (text c) /\ PyStr.lower u = word h.
Proof.
  rewrite find_keywords_spec. generalize "" as prev.
  induction (read vttfile) as [|c cs IH]; intros prev; [intros [] |].
  cbn [matcher_hits]. rewrite in_app_iff. intros [Hc | Hrest].
  - unfold cue_hits in Hc. apply in_flat_map in Hc.
    destruct Hc as [line [Hl Hh]].
    apply hits_of_line_times in Hh. destruct Hh as [H1 [H2 [H3 H4]]].
    split; [exact H3 |]. exists c.
    split; [now left |]. split; [exact H1 |]. split; [exact H2 |].
    apply accepted_lines_incl in Hl. unfold lines_of in Hl.
    apply split_fields_occur in Hl. apply contains_iff in H4.
    pose proof (occurs_in_trans _ _ _ H4 Hl) as Ho.
    apply contains_iff, contains_lower_iff in Ho.
    destruct Ho as [u [Hu Hlow]]. exists u. split; [| exact Hlow].
    exact (occurs_in_trans _ _ _ Hu (strip_occurs (text c))).
  - destruct (IH _ Hrest) as [H1 [c' [Hin H2]]].
    split; [exact H1 |]. exists c'. split; [now right | exact H2].
Qed.

Lemma X5_witness :
  In "cat" ["mat"; "cat"] /\
  exists c,
    In c [cue "a dog"; cue " The Cat sat"] /\
    fzero = _start c /\ fone = _end c /\
    exists u, occurs_in u (text c) /\ PyStr.lower u = "cat".
Proof.
  apply (X5_hits_are_backed (fun _ => [cue "a dog"; cue " The Cat sat"])
           "x.vtt" ["mat"; "cat"]
           {| word := "cat"; start := fzero; end_ := fone |}).
  left. reflexivity.
Defined.

(** ** The order of the keywords *)

Lemma filter_permutation {A : Type} (f : A -> bool) (xs ys : list A) :
  Permutation xs ys -> Permutation (filter f xs) (filter f ys).
Proof.
  induction 1 as [| x xs ys _ IH | x y xs | xs ys zs _ IH1 _ IH2]; simpl.
  - constructor.
  - destruct (f x); [now constructor | exact IH].
  - destruct (f x), (f y); try apply Permutation_refl. constructor.
  - eapply Permutation_trans; eassumption.
Qed.

Lemma hits_of_line_permutation (ks ks' : list string) (c : Caption)
    (l : string) :
  Permutation ks ks' ->
  Permutation (hits_of_line ks c l) (hits_of_line ks' c l).
Proof.
  intros H. unfold hits_of_line. now apply Permutation_map, filter_permutation.
Qed.

Lemma hits_of_line_map_times (ks : list string) (c : Caption) (l : string) :
  map times (hits_of_line ks c l)
  = repeat (_start c, _end c) (List.length (hits_of_line ks c l)).
Proof.
  unfold hits_of_line. induction (filter _ ks) as [|w ws IH]; simpl.
  - reflexivity.
  - now rewrite IH.
Qed.

Lemma matcher_hits_permutation (ks ks' : list string) (cs : list Caption)
    (prev : string) :
  Permutation ks ks' ->
  Permutation (matcher_hits ks prev cs) (matcher_hits ks' prev cs) /\
  map times (matcher_hits ks prev cs) = map times (matcher_hits ks' prev cs).
Proof.
  intros H. revert prev. induction cs as [|c cs IH]; intros prev.
  - split; [constructor | reflexivity].
  - cbn [matcher_hits]. destruct (IH (state_after prev (lines_of c))) as [P E].
    assert (Hc : Permutation (cue_hits ks prev c) (cue_hits ks' prev c) /\
                 map times (cue_hits ks prev c)
                 = map times (cue_hits ks' prev c)).
    { unfold cue_hits.
      induction (accepted_lines prev (lines_of c)) as [|l ls IHl].
      - split; [constructor | reflexivity].
      - cbn [flat_map]. destruct IHl as [Pl El].
        pose proof (hits_of_line_permutation ks ks' c l H) as Hp.
        split; [now apply Permutation_app |].
        rewrite !map_app, El, !hits_of_line_map_times.
        now rewrite (Permutation_length Hp). }
    destruct Hc as [Pc Ec].
    split; [now apply Permutation_app |].
    now rewrite !map_app, Ec, E.
Qed.

(** X6. The order of the keywords matters only to the order of the hits
    of one line: with the keywords permuted the matcher yields a
    permutation of the hits, and the same timestamps in the same order. *)
Theorem X6_keyword_order (read : string -> list Caption) (vttfile : string)
    (keywords keywords' : list string) :
  Permutation keywords keywords' ->
  Permutation (find_keywords read vttfile keywords)
              (find_keywords read vttfile keywords') /\
  map times (find_keywords read vttfile keywords)
  = map times (find_keywords read vttfile keywords').
Proof.
  intros H. rewrite !find_keywords_spec. now apply matcher_hits_permutation.
Qed.

Lemma X6_witness :
  Permutation
    (find_keywords (fun _ => [cue "the cat sat on the mat"]) "x.vtt"
       ["cat"; "mat"])
    (find_keywords (fun _ => [cue "the cat sat on the mat"]) "x.vtt"
       ["mat"; "cat"]) /\
  map times
    (find_keywords (fun _ => [cue "the cat sat on the mat"]) "x.vtt"
       ["cat"; "mat"])
  = map times
      (find_keywords (fun _ => [cue "the cat sat on the mat"]) "x.vtt"
         ["mat"; "cat"]).
Proof.
  apply X6_keyword_order. apply perm_swap.
Defined.

(** ** What the edit list depends on *)

Lemma plan_from_times (v v' : Video) (hs hs' : list Keyword)
    (rest rest' : list (Video * Keyword)) (counter : Z) (t : float) :
  vidpath v = vidpath v' -> fps v = fps v' ->
  map times hs = map times hs' ->
  (forall counter t, plan_from counter t rest = plan_from counter t rest') ->
  plan_from counter t (map (pair v) hs ++ rest)
  = plan_from counter t (map (pair v') hs' ++ rest').
Proof.
  intros Hp Hf Ht Hr. revert hs' Ht counter t.
  induction hs as [|h hs IH]; intros hs' Ht counter t;
    destruct hs' as [|h' hs']; try discriminate.
  - apply Hr.
  - simpl in Ht. injection Ht as Hs He Ht. unfold times in *.
    simpl. rewrite Hp, Hf, Hs, He. f_equal. now apply IH.
Qed.

Lemma edl_plan_same_footage (result result' : list Video) (counter : Z)
    (t : float) :
  Forall2 same_footage result result' ->
  plan_from counter t (edl_jobs result) = plan_from counter t (edl_jobs result').
Proof.
  intros H. revert counter t.
  induction H as [|v v' vs vs' [Hp [Hf Ht]] _ IH]; intros counter t.
  - reflexivity.
  - unfold edl_jobs. cbn [flat_map]. now apply plan_from_times.
Qed.

(** X7. [write_edl] reads of a video its media path, its frame rate and
    the timestamps of its hits, and nothing else: two corpora that agree on
    these are written as the same text, with the same outcome, whatever the
    ids, subtitle paths and keywords. *)
Theorem X7_edl_depends_on_footage (result result' : list Video)
    (title f : string) :
  Forall2 same_footage result result' ->
  write_edl result title f = write_edl result' title f.
Proof.
  intros H. rewrite !write_edl_emit. unfold edl_plan.
  now rewrite (edl_plan_same_footage result result' 1 fzero H).
Qed.

Lemma X7_witness :
  write_edl
    [ {| id := "abc"; vttpath := "a.vtt"; vidpath := "v/abc.mp4";
         fps := float_of_Z 30;
         hits := [ {| word := "cat"; start := fzero; end_ := fone |} ] |} ]
    "Supercut" ""
  = write_edl
      [ {| id := "xyz"; vttpath := "b.vtt"; vidpath := "v/abc.mp4";
           fps := float_of_Z 30;
           hits := [ {| word := "mat"; start := fzero; end_ := fone |} ] |} ]
      "Supercut" "".
Proof.
  apply X7_edl_depends_on_footage.
  constructor; [| constructor]. repeat split.
Defined.

Lemma record_of_permutation (read : string -> list Caption)
    (ks ks' : list string) (e : DirEntry) :
  Permutation ks ks' ->
  Forall2 (fun v v' => id v = id v' /\ vttpath v = vttpath v' /\
                       Permutation (hits v) (hits v') /\ same_footage v v')
          (record_of read ks e) (record_of read ks' e).
Proof.
  intros H. unfold record_of.
  destruct (matcher_hits_permutation ks ks' (read (path e)) "" H) as [P E].
  rewrite <- !find_keywords_spec in P, E.
  destruct (find_keywords read (path e) ks) as [|h hs];
    destruct (find_keywords read (path e) ks') as [|h' hs'].
  - constructor.
  - apply Permutation_nil in P. discriminate.
  - apply Permutation_sym, Permutation_nil in P. discriminate.
  - constructor; [| constructor]. cbn [id vttpath hits].
    repeat split; try assumption.
Qed.

Lemma forall2_flat_map {A B : Type} (R : B -> B -> Prop)
    (f g : A -> list B) (xs : list A) :
  (forall x, Forall2 R (f x) (g x)) ->
  Forall2 R (flat_map f xs) (flat_map g xs).
Proof.
  intros H. induction xs as [|x xs IH]; simpl; [constructor |].
  apply Forall2_app; [apply H | exact IH].
Qed.

(** X8. The order in which the keyword set is iterated does not reach the
    edit list: with the keywords permuted the scanner returns the same
    videos, each with a permutation of its hits, and [write_edl] writes
    the same text for both corpora. *)
Theorem X8_scan_keyword_order (scandir : string -> list DirEntry)
    (read : string -> list Caption) (directory : string)
    (keywords keywords' : list string) (title f : string) :
  Permutation keywords keywords' ->
  Forall2 (fun v v' => id v = id v' /\ vttpath v = vttpath v' /\
                       Permutation (hits v) (hits v') /\ same_footage v v')
          (find_all_keywords scandir read directory keywords)
          (find_all_keywords scandir read directory keywords') /\
  write_edl (find_all_keywords scandir read directory keywords) title f
  = write_edl (find_all_keywords scandir read directory keywords') title f.
Proof.
  intros H.
  assert (HF : Forall2
                 (fun v v' => id v = id v' /\ vttpath v = vttpath v' /\
                              Permutation (hits v) (hits v') /\
                              same_footage v v')
                 (find_all_keywords scandir read directory keywords)
                 (find_all_keywords scandir read directory keywords')).
  { unfold find_all_keywords. rewrite !scan_entries_spec. cbn [app].
    apply forall2_flat_map. intros e. now apply record_of_permutation. }
  split; [exact HF |].
  rewrite !write_edl_emit. unfold edl_plan. f_equal.
  apply edl_plan_same_footage.
  eapply Forall2_impl; [| exact HF]. cbn beta. tauto.
Qed.

Lemma X8_witness :
  write_edl (find_all_keywords two_entries two_tracks "subs" ["cat"; "dog"])
    "Supercut" ""
  = write_edl (find_all_keywords two_entries two_tracks "subs" ["dog"; "cat"])
      "Supercut" "".
Proof.
  apply (X8_scan_keyword_order two_entries two_tracks "subs"
           ["cat"; "dog"] ["dog"; "cat"] "Supercut" "").
  apply perm_swap.
Defined.

(** ** Outcomes of the edit-list writer *)

(** [timecode] raises no assertion error. *)
Lemma timecode_no_assertion (secs rate : float) (msg : string) :
  timecode secs rate <> Raise (AssertionError msg).
Proof.
  unfold timecode, timecode_hms, timecode_frame, timedelta_of_seconds.
  destruct secs as [s | s | | s m e]; cbn [int_of_float rbind];
    try discriminate;
    (destruct (Z.abs _ >? 999999999); cbn [rbind]; [discriminate |]);
    destruct (fmul _ rate); cbn [int_of_float rbind]; discriminate.
Qed.

Lemma edit_text_no_assertion (e : Edit) (msg : string) :
  edit_text e <> Raise (AssertionError msg).
Proof.
  unfold edit_text, source_in_timecode, source_out_timecode,
    program_in_timecode, program_out_timecode.
  pose proof (timecode_no_assertion (ed_source_in e) (ed_fps e) msg).
  pose proof (timecode_no_assertion (ed_source_out e) (ed_fps e) msg).
  pose proof (timecode_no_assertion (ed_program_in e) (ed_fps e) msg).
  pose proof (timecode_no_assertion (ed_program_out e) (ed_fps e) msg).
  destruct (timecode (ed_source_in e) (ed_fps e)); cbn [rbind];
    [| assumption].
  destruct (timecode (ed_source_out e) (ed_fps e)); cbn [rbind];
    [| assumption].
  destruct (timecode (ed_program_in e) (ed_fps e)); cbn [rbind];
    [| assumption].
  destruct (timecode (ed_program_out e) (ed_fps e)); cbn [rbind];
    [discriminate | assumption].
Qed.

(** Where [emit] stops: the rendered records before, and what stopped it. *)
Lemma emit_stops (plan : list Edit) (f : string) :
  exists done rest texts,
    plan = (done ++ rest)%list /\
    rmap edit_text done = Ok texts /\
    (forall d, In d done -> ed_seq d < 1000) /\
    fst (emit plan f) = f ++ text_of_all texts /\
    match rest with
    | [] => snd (emit plan f) = Ok tt
    | e :: _ =>
        (1000 <= ed_seq e /\
         snd (emit plan f) = Raise (AssertionError limit_message)) \/
        (ed_seq e < 1000 /\ exists x, edit_text e = Raise x /\
                                       snd (emit plan f) = Raise x)
    end.
Proof.
  revert f. induction plan as [|e plan IH]; intros f.
  - exists [], [], []. simpl. rewrite append_nil_r.
    repeat split; try reflexivity. intros d [].
  - cbn [emit]. unfold io_bind, io_assert, io_lift, io_write.
    destruct (Z.ltb_spec (ed_seq e) 1000) as [Hlt | Hge].
    + destruct (edit_text e) as [s|x] eqn:Es.
      * destruct (IH (f ++ s)) as [done [rest [texts [Hp [Ht [Hs [Hf Ho]]]]]]].
        exists (e :: done), rest, (s :: texts).
        split; [simpl; now rewrite Hp |].
        split; [simpl; now rewrite Es, Ht |].
        split; [intros d [<- | Hd]; [exact Hlt | now apply Hs] |].
        split; [rewrite Hf; simpl; now rewrite append_assoc | exact Ho].
      * exists [], (e :: plan), []. simpl. rewrite append_nil_r.
        split; [reflexivity |]. split; [reflexivity |].
        split; [intros d [] |]. split; [reflexivity |].
        right. split; [exact Hlt |]. now exists x.
    + exists [], (e :: plan), []. simpl. rewrite append_nil_r.
      split; [reflexivity |]. split; [reflexivity |].
      split; [intros d [] |]. split; [reflexivity |].
      left. split; [exact Hge | reflexivity].
Qed.

Lemma numbers_from_app (k : Z) (a b : nat) :
  numbers_from k (a + b)
  = (numbers_from k a ++ numbers_from (k + Z.of_nat a) b)%list.
Proof.
  revert k. induction a as [|a IH]; intros k.
  - simpl. now rewrite Z.add_0_r.
  - cbn [Nat.add numbers_from app]. rewrite IH. do 3 f_equal. lia.
Qed.

Lemma numbers_from_length (k : Z) (n : nat) :
  List.length (numbers_from k n) = n.
Proof.
  revert k. induction n as [|n IH]; intros k; simpl; [reflexivity |].
  now rewrite IH.
Qed.

(** The number of a record is its position, counted from the first number. *)
Lemma plan_from_split_seq (jobs : list (Video * Keyword)) (counter : Z)
    (t : float) (done rest : list Edit) (e : Edit) :
  plan_from counter t jobs = (done ++ e :: rest)%list ->
  ed_seq e = counter + Z.of_nat (List.length done).
Proof.
  revert jobs counter t. induction done as [|d done IH]; intros jobs counter t.
  - destruct jobs as [|[v h] jobs]; [discriminate |].
    simpl. intros H. injection H as <- _. simpl. lia.
  - destruct jobs as [|[v h] jobs]; [discriminate |].
    cbn [plan_from app]. intros H. injection H as _ H.
    rewrite (IH _ _ _ H). cbn [List.length]. lia.
Qed.

Lemma plan_split_seq (result : list Video) (done rest : list Edit) (e : Edit) :
  edl_plan result = (done ++ e :: rest)%list ->
  ed_seq e = 1 + Z.of_nat (List.length done) /\
  (List.length done < hit_count result)%nat.
Proof.
  intros H. split; [exact (plan_from_split_seq _ _ _ _ _ _ H) |].
  assert (Hl : List.length (edl_plan result) = hit_count result)
    by apply plan_length.
  rewrite H, List.length_app in Hl. cbn [List.length] in Hl. lia.
Qed.

Lemma plan_done_seq (result : list Video) (done rest : list Edit) (d : Edit) :
  edl_plan result = (done ++ rest)%list -> In d done ->
  1 <= ed_seq d <= Z.of_nat (List.length done).
Proof.
  intros H Hd. apply in_split in Hd. destruct Hd as [d1 [d2 ->]].
  rewrite <- app_assoc in H. cbn [app] in H.
  rewrite (plan_from_split_seq _ _ _ _ _ _ H).
  rewrite List.length_app. cbn [List.length]. lia.
Qed.

(** X9. A corpus without hits, among them the empty corpus, is written as
    the header alone, and the writer returns normally. *)
Theorem X9_no_hits_header_only (result : list Video) (title f : string) :
  hit_count result = 0%nat ->
  write_edl result title f = (f ++ edl_header title, Ok tt).
Proof.
  intros H. rewrite write_edl_emit. unfold edl_plan.
  unfold hit_count in H. destruct (edl_jobs result); [reflexivity |].
  discriminate.
Qed.

Lemma X9_witness :
  write_edl [clip (float_of_Z 30) []] "Supercut" ""
  = ("" ++ edl_header "Supercut", Ok tt).
Proof. apply X9_no_hits_header_only. reflexivity. Defined.



(** X11. The only assertion error of the writer is that of the edit
    limit, and it is raised only for a corpus of 1000 hits or more, after
    the header and exactly 999 records have been written. *)
Theorem X11_assertion_only_at_limit (result : list Video) (title f msg : string) :
  snd (write_edl result title f) = Raise (AssertionError msg) ->
  msg = limit_message /\ (1000 <= hit_count result)%nat /\
  exists texts,
    rmap edit_text (firstn 999 (edl_plan result)) = Ok texts /\
    List.length texts = 999%nat /\
    fst (write_edl result title f)
    = f ++ edl_header title ++ text_of_all texts.
Proof.
  rewrite write_edl_emit.
  destruct (emit_stops (edl_plan result) (f ++ edl_header title))
    as [done [rest [texts [Hp [Ht [Hs [Hf Ho]]]]]]].
  intros H. destruct rest as [|e rest].
  - rewrite Ho in H. discriminate.
  - destruct Ho as [[Hge Ho] | [_ [x [Hx Ho]]]].
    + rewrite Ho in H. injection H as <-.
      destruct (plan_split_seq _ _ _ _ Hp) as [He Hlen].
      assert (Hd : List.length done = 999%nat).
      { destruct (Nat.le_gt_cases (List.length done) 999) as [Hle | Hgt];
          [lia | exfalso].
        pose proof (firstn_skipn 999 done) as Hsplit.
        pose proof (length_skipn 999 done) as Hsk.
        pose proof (length_firstn 999 done) as Hfi.
        destruct (skipn 999 done) as [|x d2]; [simpl in Hsk; lia |].
        assert (Hin : In x done).
        { rewrite <- Hsplit. apply in_or_app. right. now left. }
        pose proof (Hs x Hin) as Hlt.
        rewrite <- Hsplit, <- app_assoc in Hp. cbn [app] in Hp.
        pose proof (plan_from_split_seq _ _ _ _ _ _ Hp) as Hx. lia. }
      split; [reflexivity |]. split; [lia |].
      exists texts.
      assert (Hfirst : firstn 999 (edl_plan result) = done).
      { rewrite Hp, <- Hd, firstn_app, Nat.sub_diag, firstn_all. simpl.
        apply app_nil_r. }
      rewrite Hfirst. split; [exact Ht |].
      split; [apply rmap_length in Ht; lia |].
      rewrite Hf. now rewrite append_assoc.
    + rewrite Ho in H. injection H as ->. exfalso.
      exact (edit_text_no_assertion e msg Hx).
Qed.

Lemma X11_witness :
  limit_message = limit_message /\
  (1000 <= hit_count (corpus_of_hits 1000))%nat /\
  exists texts,
    rmap edit_text (firstn 999 (edl_plan (corpus_of_hits 1000))) = Ok texts /\
    List.length texts = 999%nat /\
    fst (write_edl (corpus_of_hits 1000) "Supercut" "")
    = "" ++ edl_header "Supercut" ++ text_of_all texts.
Proof.
  apply (X11_assertion_only_at_limit (corpus_of_hits 1000) "Supercut" ""
           limit_message).
  destruct (write_edl_over_limit (corpus_of_hits 1000) "Supercut" ""
              (texts_of (firstn 999 (edl_plan (corpus_of_hits 1000)))))
    as [-> _].
  - apply Nat.leb_le. vm_compute. reflexivity.
  - vm_compute. reflexivity.
  - reflexivity.
Defined.

(** X12. Whatever the corpus and the outcome, what the writer leaves in
    the file is what was there, then the header, then whole records: the
    texts of the records of an initial part of the plan.  The writer
    returns normally exactly when that part is the whole plan. *)
Theorem X12_whole_records_only (result : list Video) (title f : string) :
  exists done rest texts,
    edl_plan result = (done ++ rest)%list /\
    rmap edit_text done = Ok texts /\
    fst (write_edl result title f)
    = f ++ edl_header title ++ text_of_all texts /\
    (snd (write_edl result title f) = Ok tt <-> rest = []).
Proof.
  rewrite write_edl_emit.
  destruct (emit_stops (edl_plan result) (f ++ edl_header title))
    as [done [rest [texts [Hp [Ht [_ [Hf Ho]]]]]]].
  exists done, rest, texts.
  split; [exact Hp |]. split; [exact Ht |].
  split; [rewrite Hf; now rewrite append_assoc |].
  destruct rest as [|e rest].
  - split; [reflexivity | intros _; exact Ho].
  - split; [| discriminate].
    intros H. destruct Ho as [[_ Ho] | [_ [x [_ Ho]]]];
      rewrite Ho in H; discriminate.
Qed.

(** X13. When the last stage of [main] succeeds, the output file holds
    the complete document, the header and one record for each of the at
    most 999 hits, whatever it held before; no other file is touched. *)
Theorem X13_successful_synthesis (fs fs' : filesystem) (edl_path : string)
    (result : list Video) :
  generate_edl fs edl_path result = (fs', Ok tt) ->
  (hit_count result <= 999)%nat /\
  exists texts,
    rmap edit_text (edl_plan result) = Ok texts /\
    List.length texts = hit_count result /\
    fs' edl_path = Some (edl_header "Supercut" ++ text_of_all texts) /\
    forall q, q <> edl_path -> fs' q = fs q.
Proof.
  unfold generate_edl. rewrite write_edl_emit.
  destruct (emit_stops (edl_plan result) ("" ++ edl_header "Supercut"))
    as [done [rest [texts [Hp [Ht [Hs [Hf Ho]]]]]]].
  destruct (emit (edl_plan result) ("" ++ edl_header "Supercut"))
    as [written r].
  cbn [fst snd] in Hf, Ho. intros H. injection H as <- ->.
  destruct rest as [|e rest].
  - rewrite app_nil_r in Hp. subst done.
    assert (Hlen : List.length texts = hit_count result).
    { apply rmap_length in Ht. rewrite Ht. apply plan_length. }
    split.
    + destruct (Nat.le_gt_cases (hit_count result) 999) as [|Hgt];
        [assumption | exfalso].
      assert (Hin : In 1000 (map ed_seq (edl_plan result))).
      { rewrite edl_plan_seq.
        replace (hit_count result)
          with (999 + (hit_count result - 999))%nat by lia.
        rewrite numbers_from_app. apply in_or_app. right.
        destruct (hit_count result - 999)%nat eqn:E; [lia |]. now left. }
      apply in_map_iff in Hin. destruct Hin as [d [Hd Hin]].
      pose proof (Hs d Hin). lia.
    + exists texts. split; [exact Ht |]. split; [exact Hlen |].
      split; [rewrite fs_store_same, Hf; reflexivity |].
      intros q Hq. now apply fs_store_other.
  - destruct Ho as [[_ Ho] | [_ [x [_ Ho]]]]; discriminate.
Qed.

Lemma X13_witness :
  (hit_count (corpus_of_hits 2) <= 999)%nat /\
  exists texts,
    rmap edit_text (edl_plan (corpus_of_hits 2)) = Ok texts /\
    List.length texts = hit_count (corpus_of_hits 2) /\
    fst (generate_edl no_files "supercut.edl" (corpus_of_hits 2))
      "supercut.edl"
    = Some (edl_header "Supercut" ++ text_of_all texts) /\
    forall q, q <> "supercut.edl" ->
      fst (generate_edl no_files "supercut.edl" (corpus_of_hits 2)) q
      = no_files q.
Proof.
  apply (X13_successful_synthesis no_files _ "supercut.edl"
           (corpus_of_hits 2)).
  reflexivity.
Defined.

(** ** Clip names *)

Lemma join_last (sep : string) (fields : list string) :
  fields <> [] ->
  exists head,
    PyStr.join sep fields = head ++ last fields "" /\
    (head = "" \/ exists h, head = h ++ sep).
Proof.
  induction fields as [|x xs IH]; [contradiction |]. intros _.
  destruct xs as [|y ys].
  - exists "". split; [reflexivity | now left].
  - destruct IH as [head [IH Hh]]; [discriminate |].
    rewrite join_cons by discriminate. rewrite !last_cons.
    rewrite last_cons in IH.
    exists (x ++ sep ++ head). split.
    + rewrite IH. now rewrite !append_assoc.
    + right. destruct Hh as [-> | [h ->]].
      * exists x. rewrite (append_nil_r sep). reflexivity.
      * exists (x ++ sep ++ h). now rewrite !append_assoc.
Qed.

Lemma last_in {A : Type} (xs : list A) (d : A) : xs <> [] -> In (last xs d) xs.
Proof.
  induction xs as [|x xs IH]; [contradiction |]. intros _.
  destruct xs as [|y ys]; [now left |].
  right. apply IH. discriminate.
Qed.

(** X14. The clip name written for a record is what follows the last slash
    of the media path: it holds no slash, and the path is the clip name
    preceded by nothing or by a text that ends with a slash. *)
Theorem X14_clip_name (p : string) :
  PyStr.contains "/" (basename p) = false /\
  exists head,
    p = head ++ basename p /\
    (head = "" \/ exists h, head = h ++ "/").
Proof.
  unfold basename. split.
  - apply (split_fields_no_sep "/" p). apply last_in, split_not_nil.
  - destruct (join_last "/" (PyStr.split "/" p) (split_not_nil _ _))
      as [head [Hj Hh]].
    rewrite (join_split "/" p) in Hj. now exists head.
Qed.

(** ** Errors and edge cases of the timecode codec *)

(** X15. From 86400 * 10^9 seconds on, one day more than the largest
    duration of the library, [timecode] raises [OverflowError], whatever the
    frame rate; so it does for an infinite instant. *)
Theorem X15_overflow (secs rate : float) :
  is_float secs = true ->
  fleb (float_of_Z (86400 * 1000000000)) secs = true ->
  timecode secs rate = Raise OverflowError.
Proof.
  intros Hv Hle.
  change (float_of_Z (86400 * 1000000000))
    with (S754_finite false 5529600000000000 (- (6))) in Hle.
  unfold timecode, timecode_hms.
  destruct (int_of_float secs) as [n|x] eqn:Hn.
  - assert (Hge : 86400000000000 <= n).
    { apply (int_of_float_above secs _ 6 86400000000000 n Hv Hle);
        [lia | reflexivity | simpl; lia | exact Hn]. }
    cbn [rbind]. unfold timedelta_of_seconds.
    assert (1000000000 <= n / 86400) by (apply Z.div_le_lower_bound; lia).
    destruct (Z.gtb_spec (Z.abs (n / 86400)) 999999999); [reflexivity | lia].
  - destruct secs as [s | s | | s m e]; try discriminate.
    simpl in Hn. injection Hn as <-. reflexivity.
Qed.

Lemma X15_witness :
  timecode (float_of_Z (86400 * 1000000000)) (float_of_Z 30)
  = Raise OverflowError.
Proof. apply X15_overflow; reflexivity. Defined.

(** The product of a finite float that is not negative and a zero. *)
Lemma timecode_frame_zero_rate (secs : float) (s : bool) :
  is_float secs = true -> is_finite secs = true -> fleb fzero secs = true ->
  timecode_frame secs (S754_zero s) = Ok 0.
Proof.
  intros Hv Hf H0. unfold timecode_frame.
  destruct (float_rem1_nonneg secs Hv Hf H0) as [-> | [mx [ex [-> _]]]];
    reflexivity.
Qed.

(** X16. A frame rate of zero, which is what the scanner puts in a record,
    is not rejected: for an instant from 0 up to the largest duration the
    frame number is 0 and the timecode is the duration followed by
    [":00"]. *)
Theorem X16_zero_frame_rate (secs : float) (s : bool) :
  is_float secs = true ->
  fleb fzero secs = true ->
  fltb secs (float_of_Z (86400 * 1000000000)) = true ->
  exists n,
    int_of_float secs = Ok n /\ 0 <= n /\
    timecode secs (S754_zero s)
    = Ok (timedelta_str {| days := n / 86400; seconds := n mod 86400;
                           microseconds := 0 |} ++ ":00").
Proof.
  intros Hv H0 Hlt.
  change (float_of_Z (86400 * 1000000000))
    with (S754_finite false 5529600000000000 (- (6))) in Hlt.
  pose proof (fltb_finite _ _ _ Hlt H0) as Hf.
  destruct (int_of_float_below secs _ 6 86400000000000 Hv H0 Hlt)
    as [n [Hn Hrange]]; [lia | reflexivity | simpl; lia |].
  exists n. split; [exact Hn |]. split; [lia |].
  assert (Hd : 0 <= n / 86400 < 1000000000).
  { split; [apply Z.div_pos; lia | apply Z.div_lt_upper_bound; lia]. }
  unfold timecode, timecode_hms, timedelta_of_seconds.
  rewrite Hn. cbn [rbind].
  destruct (Z.gtb_spec (Z.abs (n / 86400)) 999999999); [lia |].
  cbn [rbind]. rewrite (timecode_frame_zero_rate secs s Hv Hf H0).
  reflexivity.
Qed.

Lemma X16_witness :
  exists n,
    int_of_float (float_of_dyadic 181 (-1)) = Ok n /\ 0 <= n /\
    timecode (float_of_dyadic 181 (-1)) (S754_zero false)
    = Ok (timedelta_str {| days := n / 86400; seconds := n mod 86400;
                           microseconds := 0 |} ++ ":00").
Proof. apply X16_zero_frame_rate; reflexivity. Defined.

(** ** Whole seconds *)

(** The float of a mantissa that fits keeps its value. *)
Lemma binary_round_exact (r : positive) (e : Z) :
  Zpos r < 2 ^ 53 -> -1074 <= e <= 971 ->
  exists mz ez,
    binary_round prec emax false r e = S754_finite false mz ez /\
    ez <= e /\ Zpos mz = Zpos r * 2 ^ (e - ez) /\
    is_float (S754_finite false mz ez) = true.
Proof.
  intros Hr He.
  assert (Hd : Zpos (digits2_pos r) <= 53) by (apply digits2_le; exact Hr).
  unfold binary_round, shl_align.
  set (e' := fexp prec emax (Zpos (digits2_pos r) + e)).
  assert (He' : e' <= e /\ -1074 <= e').
  { unfold e'. rewrite fexp_eq. lia. }
  assert (Hvalid : forall mz ez,
             fexp prec emax (Zpos (digits2_pos mz) + ez) = ez -> ez <= 971 ->
             is_float (S754_finite false mz ez) = true).
  { intros mz ez Hc Hle. unfold is_float, valid_binary, bounded,
      canonical_mantissa.
    apply andb_true_iff. split; [apply Z.eqb_eq; exact Hc |].
    apply Z.leb_le. unfold emax, prec. lia. }
  destruct (e' - e) as [|d|d] eqn:E; [| lia |].
  - assert (Heq : e' = e) by lia.
    exists r, e. split; [| split; [lia | split]].
    + apply binary_round_aux_exact; [fold e'; lia | lia].
    + rewrite Z.sub_diag. simpl. lia.
    + apply Hvalid; [fold e'; exact Heq | lia].
  - assert (Hdig : Zpos (digits2_pos (Pos.iter xO r d)) + e'
                   = Zpos (digits2_pos r) + e)
      by (rewrite iter_xO_digits; lia).
    exists (Pos.iter xO r d), e'. split; [| split; [lia | split]].
    + apply binary_round_aux_exact; [| lia]. rewrite Hdig. fold e'. lia.
    + rewrite iter_xO_value. f_equal. f_equal. lia.
    + apply Hvalid; [rewrite Hdig; reflexivity | lia].
Qed.

(** The float of a natural number below [2 ^ 53] is that number: it
    truncates to it and has no fraction. *)
Lemma float_of_Z_exact (n : Z) :
  0 <= n < 2 ^ 53 ->
  is_float (float_of_Z n) = true /\ is_finite (float_of_Z n) = true /\
  fleb fzero (float_of_Z n) = true /\
  int_of_float (float_of_Z n) = Ok n /\
  float_rem1 (float_of_Z n) = S754_zero false.
Proof.
  intros Hn. unfold float_of_Z, binary_normalize.
  destruct n as [|r|r]; [repeat split | | lia].
  destruct (binary_round_exact r 0) as [mz [ez [E [Hez [Hmz Hv]]]]];
    [lia | lia |].
  rewrite E.
  assert (H2 : 0 < 2 ^ (- ez)) by (apply Z.pow_pos_nonneg; lia).
  replace (0 - ez) with (- ez) in Hmz by lia.
  split; [exact Hv |]. split; [reflexivity |]. split; [reflexivity |].
  split.
  - cbn [int_of_float cond_Zopp]. f_equal.
    rewrite Z.shiftl_div_pow2 by lia. rewrite Hmz. apply Z.div_mul. lia.
  - unfold float_rem1, fmod1.
    destruct ez as [|p|p]; [reflexivity | lia |].
    change (- Zneg p) with (Zpos p) in *.
    rewrite Hmz, Z.mod_mul by lia. reflexivity.
Qed.

(** X17. At a whole number of seconds below one day and at any finite
    frame rate, the frame number is 0: the timecode is the hours, minutes
    and seconds followed by [":00"]. *)
Theorem X17_whole_seconds (n : Z) (rate : float) :
  0 <= n < 86400 -> is_finite rate = true ->
  timecode (float_of_Z n) rate = Ok (hms_of_seconds n ++ ":00").
Proof.
  intros Hn Hr.
  destruct (float_of_Z_exact n) as [_ [_ [_ [Hi Hm]]]];
    [split; [lia |]; apply Z.lt_trans with 86400; [lia | reflexivity] |].
  unfold timecode, timecode_hms, timecode_frame.
  rewrite Hi, Hm. cbn [rbind].
  rewrite timedelta_small by exact Hn. cbn [rbind].
  rewrite timedelta_str_small.
  destruct rate as [s | s | | s m e]; try discriminate; reflexivity.
Qed.

Lemma X17_witness :
  timecode (float_of_Z 3725) (float_of_ratio 30000 1001)
  = Ok (hms_of_seconds 3725 ++ ":00").
Proof. apply X17_whole_seconds; [lia | reflexivity]. Defined.

(** ** The frame number and the frame rate *)

(** What rounding returns, in terms of the shifted mantissa. *)
Lemma binary_round_aux_shape (s : bool) (mx ex : Z) (lx : location) :
  0 <= mx ->
  let k := Z.max 0 (fexp prec emax (Zdigits2 mx + ex) - ex) in
  exists m1 k2,
    mx / 2 ^ k <= m1 <= mx / 2 ^ k + 1 /\ 0 <= k2 /\
    (binary_round_aux prec emax s mx ex lx = S754_zero s \/
     binary_round_aux prec emax s mx ex lx = S754_infinity s \/
     exists m,
       binary_round_aux prec emax s mx ex lx
       = S754_finite s m (ex + k + k2) /\
       Zpos m = m1 / 2 ^ k2).
Proof.
  intros Hmx k. unfold binary_round_aux.
  destruct (shr_fexp_spec mx ex lx Hmx) as [H1 H2]. fold k in H1, H2.
  destruct (shr_fexp prec emax mx ex lx) as [mrs' e']. cbn [fst snd] in H1, H2.
  set (m1 := round_nearest_even (shr_m mrs') (loc_of_shr_record mrs')).
  pose proof (round_nearest_even_bounds (shr_m mrs') (loc_of_shr_record mrs'))
    as Hr. fold m1 in Hr.
  assert (H2k : 0 < 2 ^ k) by (apply Z.pow_pos_nonneg; lia).
  assert (Hm' : 0 <= shr_m mrs') by (rewrite H1; apply Z.div_pos; lia).
  assert (Hm1 : 0 <= m1) by lia.
  destruct (shr_fexp_spec m1 e' loc_Exact Hm1) as [H3 H4].
  destruct (shr_fexp prec emax m1 e' loc_Exact) as [mrs'' e''].
  cbn [fst snd] in H3, H4.
  set (k2 := Z.max 0 (fexp prec emax (Zdigits2 m1 + e') - e')) in *.
  exists m1, k2. split; [rewrite <- H1; exact Hr |]. split; [lia |].
  assert (Hm'' : 0 <= shr_m mrs'').
  { rewrite H3. apply Z.div_pos; [lia |]. apply Z.pow_pos_nonneg; lia. }
  destruct (shr_m mrs'') as [|p|p] eqn:Ep; [left; reflexivity | | lia].
  right. destruct (e'' <=? emax - prec); [right | left; reflexivity].
  exists p. subst e'' e'. split; [reflexivity | exact H3].
Qed.

Lemma shiftl_le_mono (a b e : Z) :
  0 <= a <= b -> Z.shiftl a e <= Z.shiftl b e.
Proof.
  intros H. destruct (Z.le_gt_cases 0 e).
  - rewrite !Z.shiftl_mul_pow2 by lia.
    apply Z.mul_le_mono_nonneg_r; [apply Z.pow_nonneg |]; lia.
  - rewrite !Z.shiftl_div_pow2 by lia.
    apply Z.div_le_mono; [apply Z.pow_pos_nonneg |]; lia.
Qed.

(** A product with a float below one truncates to no more than the other
    factor does. *)
Lemma fmul_fraction_bound (mx : positive) (ex : Z) (my : positive) (ey : Z)
    (m : positive) (e : Z) :
  ex <= -1 -> Zpos mx < 2 ^ (- ex) ->
  is_float (S754_finite false my ey) = true ->
  fmul (S754_finite false mx ex) (S754_finite false my ey)
  = S754_finite false m e ->
  Z.shiftl (Zpos m) e <= Z.shiftl (Zpos my) ey.
Proof.
  intros Hex Hmx Hv. apply valid_finite in Hv. destruct Hv as [Hmy [Hey _]].
  unfold fmul, SFmul. cbn [xorb].
  set (A := 2 ^ (- ex)) in *.
  assert (HA : 2 <= A).
  { unfold A. change 2 with (2 ^ 1) at 1. apply Z.pow_le_mono_r; lia. }
  assert (HM : Zpos (mx * my) < 2 ^ (53 - ex)).
  { rewrite Pos2Z.inj_mul.
    replace (53 - ex) with (- ex + 53) by lia. rewrite Z.pow_add_r by lia.
    fold A. nia. }
  assert (HdM : Zdigits2 (Zpos (mx * my)) <= 53 - ex)
    by (apply Zdigits2_le; lia).
  destruct (binary_round_aux_shape false (Zpos (mx * my)) (ex + ey) loc_Exact)
    as [m1 [k2 [Hm1 [Hk2 Hres]]]]; [lia |].
  set (k := Z.max 0 (fexp prec emax (Zdigits2 (Zpos (mx * my)) + (ex + ey))
                     - (ex + ey))) in *.
  assert (Hk : 0 <= k <= - ex).
  { unfold k. rewrite fexp_eq. lia. }
  intros E. rewrite E in Hres.
  destruct Hres as [Hz | [Hi | [m' [Hf Hval]]]]; try discriminate.
  injection Hf as -> ->.
  set (j := - ex - k).
  assert (H2k : 0 < 2 ^ k) by (apply Z.pow_pos_nonneg; lia).
  assert (H2j : 0 < 2 ^ j) by (apply Z.pow_pos_nonneg; unfold j; lia).
  assert (H2k2 : 0 < 2 ^ k2) by (apply Z.pow_pos_nonneg; lia).
  assert (HA' : A = 2 ^ j * 2 ^ k).
  { unfold A, j. rewrite <- Z.pow_add_r by lia. f_equal. lia. }
  (* the shifted product stays below the other factor at its scale *)
  assert (Hq : Zpos (mx * my) / 2 ^ k < Zpos my * 2 ^ j).
  { apply Z.div_lt_upper_bound; [lia |]. rewrite Pos2Z.inj_mul. nia. }
  assert (Hm1' : m1 <= Zpos my * 2 ^ j) by lia.
  assert (Hfl : Zpos m' * 2 ^ k2 <= m1).
  { rewrite Hval. rewrite Z.mul_comm. apply Z.mul_div_le. lia. }
  replace (ex + ey + k + k2) with (k2 + (ex + ey + k)) by lia.
  rewrite <- Z.shiftl_shiftl by lia. rewrite (Z.shiftl_mul_pow2 _ k2) by lia.
  apply Z.le_trans with (Z.shiftl (Zpos my * 2 ^ j) (ex + ey + k)).
  - apply shiftl_le_mono. split; [lia |]. lia.
  - rewrite <- (Z.shiftl_mul_pow2 _ j) by (unfold j; lia).
    rewrite Z.shiftl_shiftl by (unfold j; lia).
    replace (j + (ex + ey + k)) with ey by (unfold j; lia). lia.
Qed.

(** X18. For an instant that is not negative and a finite positive frame
    rate, the frame number is computed and lies between 0 and the frame
    rate truncated to an integer; for a frame rate below 100 the frame
    field has exactly two digits. *)
Theorem X18_frame_bound (secs rate : float) :
  is_float secs = true -> is_finite secs = true -> fleb fzero secs = true ->
  is_float rate = true -> is_finite rate = true -> fltb fzero rate = true ->
  exists frame limit,
    timecode_frame secs rate = Ok frame /\
    int_of_float rate = Ok limit /\
    0 <= frame <= limit /\
    (limit < 100 -> two_digits (format_int0 2 frame) = true).
Proof.
  intros Hv Hf H0 Hvr Hfr Hr.
  destruct rate as [s | s | | s my ey]; try discriminate.
  destruct s; [discriminate |].
  assert (Hlim : 0 <= Z.shiftl (Zpos my) ey) by (apply Z.shiftl_nonneg; lia).
  assert (Hres : exists frame,
             timecode_frame secs (S754_finite false my ey) = Ok frame /\
             0 <= frame <= Z.shiftl (Zpos my) ey).
  { unfold timecode_frame.
    destruct (float_rem1_nonneg secs Hv Hf H0) as [-> | [mx [ex [-> [H1 H2]]]]].
    - exists 0. split; [reflexivity | lia].
    - destruct (fmul_fraction mx ex my ey H1 H2 Hvr) as [E | [m [e E]]].
      + rewrite E. exists 0. split; [reflexivity | lia].
      + rewrite E. exists (Z.shiftl (Zpos m) e). split; [reflexivity |].
        split; [apply Z.shiftl_nonneg; lia |].
        exact (fmul_fraction_bound mx ex my ey m e H1 H2 Hvr E). }
  destruct Hres as [frame [Hframe Hb]].
  exists frame, (Z.shiftl (Zpos my) ey).
  split; [exact Hframe |]. split; [reflexivity |]. split; [exact Hb |].
  intros Hl. apply two_digits_format. lia.
Qed.

Lemma X18_witness :
  exists frame limit,
    timecode_frame (float_of_ratio 9099 100) (float_of_ratio 30000 1001)
    = Ok frame /\
    int_of_float (float_of_ratio 30000 1001) = Ok limit /\
    0 <= frame <= limit /\
    (limit < 100 -> two_digits (format_int0 2 frame) = true).
Proof. apply X18_frame_bound; reflexivity. Defined.

(** ** The stages between the scan and the edit list *)

Lemma afor_done {X Y : Type} (body : X -> attempt Y) (xs : list X)
    (acc ys : list Y) :
  afor body xs acc = Done ys ->
  exists zs, ys = (acc ++ zs)%list /\ Forall2 (fun x z => body x = Done z) xs zs.
Proof.
  revert acc. induction xs as [|x xs IH]; intros acc; cbn [afor].
  - intros H. injection H as <-. exists []. rewrite app_nil_r.
    split; [reflexivity | constructor].
  - destruct (body x) as [y|e] eqn:E; cbn [abind]; [| discriminate].
    intros H. destruct (IH _ H) as [zs [-> HF]].
    exists (y :: zs). rewrite <- app_assoc. split; [reflexivity |].
    now constructor.
Qed.

Lemma afor_failed_element {X Y : Type} (body : X -> attempt Y) (xs : list X)
    (acc : list Y) (x : X) (e : stage_exn) :
  In x xs -> body x = Failed e -> forall ys, afor body xs acc <> Done ys.
Proof.
  intros Hin Hx ys H. apply afor_done in H. destruct H as [zs [_ HF]].
  clear acc ys. induction HF as [|x0 z xs zs Hb _ IH]; [contradiction |].
  destruct Hin as [-> | Hin]; [congruence | now apply IH].
Qed.

Lemma read_result_fps_done (ffprobe : string -> attempt string)
    (py_float : string -> attempt float) (result updated : list Video) :
  read_result_fps ffprobe py_float result = Done updated ->
  Forall2
    (fun v u =>
       u = replace_fps v (fps u) /\
       read_fps ffprobe py_float (vidpath v) = Done (fps u) /\
       fltb ftwenty (fps u) = true)
    result updated.
Proof.
  unfold read_result_fps. intros H. apply afor_done in H.
  destruct H as [zs [-> HF]]. cbn [app].
  induction HF as [|v u vs us Hb _ IH]; constructor; [| exact IH].
  cbn beta in Hb.
  destruct (read_fps ffprobe py_float (vidpath v)) as [rate|e];
    cbn [abind] in Hb; [| discriminate].
  destruct (fltb ftwenty rate) eqn:Hr; [| discriminate].
  injection Hb as <-. cbn [fps replace_fps].
  split; [reflexivity |]. split; [reflexivity | exact Hr].
Qed.

(** X19. When [read_result_fps] returns, it returns the videos it was
    given, in order, each with the frame rate that [read_fps] read for its
    media path and everything else unchanged, and every frame rate is
    greater than 20: none is the error value -1.0, zero or NaN. *)
Theorem X19_read_result_fps (ffprobe : string -> attempt string)
    (py_float : string -> attempt float) (result updated : list Video) :
  read_result_fps ffprobe py_float result = Done updated ->
  Forall2
    (fun v u =>
       u = replace_fps v (fps u) /\
       read_fps ffprobe py_float (vidpath v) = Done (fps u) /\
       fltb ftwenty (fps u) = true /\
       fps u <> fminus_one /\ fps u <> S754_nan /\
       forall s, fps u <> S754_zero s)
    result updated.
Proof.
  intros H. apply read_result_fps_done in H.
  eapply Forall2_impl; [| exact H]. cbn beta.
  intros v u [H1 [H2 H3]].
  split; [exact H1 |]. split; [exact H2 |]. split; [exact H3 |].
  repeat split; intros; intro Hc; rewrite Hc in H3; discriminate H3.
Qed.

Lemma X19_witness :
  Forall2
    (fun v u =>
       u = replace_fps v (fps u) /\
       read_fps ffprobe_ntsc float_of_digits (vidpath v) = Done (fps u) /\
       fltb ftwenty (fps u) = true /\
       fps u <> fminus_one /\ fps u <> S754_nan /\
       forall s, fps u <> S754_zero s)
    [video_abc_downloaded] [video_abc_probed].
Proof.
  apply (X19_read_result_fps ffprobe_ntsc float_of_digits).
  vm_compute. reflexivity.
Defined.

(** X20. A frame rate that [read_fps] reads as not greater than 20, such
    as the -1.0 it returns for a rate printed with two slashes or more,
    stops [read_result_fps]: no corpus is returned. *)
Theorem X20_low_rate_stops (ffprobe : string -> attempt string)
    (py_float : string -> attempt float) (result : list Video) (v : Video)
    (rate : float) :
  In v result ->
  read_fps ffprobe py_float (vidpath v) = Done rate ->
  fltb ftwenty rate = false ->
  forall updated, read_result_fps ffprobe py_float result <> Done updated.
Proof.
  intros Hin Hr Hlow. unfold read_result_fps.
  apply (afor_failed_element _ result [] v StageAssertionError Hin).
  cbn beta. rewrite Hr. cbn [abind]. now rewrite Hlow.
Qed.

Lemma X20_witness :
  read_fps ffprobe_malformed float_of_digits (vidpath video_abc_downloaded)
  = Done fminus_one /\
  (forall updated,
      read_result_fps ffprobe_malformed float_of_digits [video_abc_downloaded]
      <> Done updated).
Proof.
  split; [reflexivity |].
  apply (X20_low_rate_stops ffprobe_malformed float_of_digits
           [video_abc_downloaded] video_abc_downloaded fminus_one).
  - left. reflexivity.
  - reflexivity.
  - reflexivity.
Defined.

(** The rate of a field with two slashes or more is -1.0, unparsed. *)
Lemma read_fps_malformed (ffprobe : string -> attempt string)
    (py_float : string -> attempt float) (p out before field : string)
    (rest : list string) (a b c : string) (more : list string) :
  ffprobe p = Done out ->
  PyStr.split QUOTE out = before :: field :: rest ->
  PyStr.split "/" field = a :: b :: c :: more ->
  read_fps ffprobe py_float p = Done fminus_one.
Proof.
  intros Ho Hs Hf. unfold read_fps. rewrite Ho. cbn [abind].
  rewrite Hs, Hf. reflexivity.
Qed.

Lemma download_done (youtube_dl_filename : string -> attempt string)
    (result updated : list Video) :
  download_keyword_videos youtube_dl_filename result = Done updated ->
  Forall2
    (fun v u =>
       u = replace_vidpath v (vidpath u) /\
       youtube_dl_filename (id v) = Done (vidpath u))
    result updated.
Proof.
  unfold download_keyword_videos. intros H. apply afor_done in H.
  destruct H as [zs [-> HF]]. cbn [app].
  induction HF as [|v u vs us Hb _ IH]; constructor; [| exact IH].
  cbn beta in Hb.
  destruct (youtube_dl_filename (id v)) as [p|e]; cbn [abind] in Hb;
    [| discriminate].
  injection Hb as <-. split; reflexivity.
Qed.

(** X21. When [download_keyword_videos] returns, it returns the videos it
    was given, in order, each with the media path that the download
    reported for its id and everything else, the hits among it, unchanged;
    when the download of one video fails, no corpus is returned. *)
Theorem X21_download_keyword_videos
    (youtube_dl_filename : string -> attempt string) (result : list Video) :
  (forall updated,
      download_keyword_videos youtube_dl_filename result = Done updated ->
      Forall2
        (fun v u =>
           u = replace_vidpath v (vidpath u) /\
           youtube_dl_filename (id v) = Done (vidpath u))
        result updated) /\
  (forall v e,
      In v result -> youtube_dl_filename (id v) = Failed e ->
      forall updated,
        download_keyword_videos youtube_dl_filename result <> Done updated).
Proof.
  split; [intros updated; apply download_done |].
  intros v e Hin He. unfold download_keyword_videos.
  apply (afor_failed_element _ result [] v e Hin).
  cbn beta. now rewrite He.
Qed.

Lemma X21_witness :
  Forall2
    (fun v u =>
       u = replace_vidpath v (vidpath u) /\
       download_to_videos (id v) = Done (vidpath u))
    [video_abc] [video_abc_downloaded] /\
  (forall updated,
      download_keyword_videos download_offline [video_abc] <> Done updated).
Proof.
  split.
  - apply (proj1 (X21_download_keyword_videos download_to_videos [video_abc])).
    reflexivity.
  - apply (proj2 (X21_download_keyword_videos download_offline [video_abc])
             video_abc ProcessError).
    + left. reflexivity.
    + reflexivity.
Defined.

Lemma forall2_map_eq {A B : Type} (f : A -> B) (R : A -> A -> Prop)
    (xs ys : list A) :
  (forall x y, R x y -> f y = f x) -> Forall2 R xs ys -> map f ys = map f xs.
Proof.
  intros H HF. induction HF as [|x y xs ys Hxy _ IH]; [reflexivity |].
  simpl. now rewrite (H x y Hxy), IH.
Qed.

Lemma hit_count_hits (r r' : list Video) :
  map hits r' = map hits r -> hit_count r' = hit_count r.
Proof.
  intros H. rewrite !hit_count_sum.
  rewrite <- (map_map hits (@List.length Keyword) r),
          <- (map_map hits (@List.length Keyword) r'), H.
  reflexivity.
Qed.

Lemma nonempty_lists_sum {A : Type} (xss : list (list A)) :
  Forall (fun xs => xs <> []) xss ->
  (List.length xss <= list_sum (map (@List.length A) xss))%nat.
Proof.
  induction 1 as [|xs xss Hx _ IH]; [simpl; lia |].
  destruct xs; [contradiction |]. simpl in *. lia.
Qed.

(** X22. The two stages between the scan and the edit list keep the ids,
    the subtitle paths and the hits of the videos and their order, so the
    number of records due is the number of hits scanned; applied to the
    output of the scanner they hand [write_edl] videos that all have a hit
    and a frame rate greater than 20. *)
Theorem X22_stages_keep_hits
    (youtube_dl_filename : string -> attempt string)
    (ffprobe : string -> attempt string)
    (py_float : string -> attempt float)
    (scanned downloaded probed : list Video) :
  download_keyword_videos youtube_dl_filename scanned = Done downloaded ->
  read_result_fps ffprobe py_float downloaded = Done probed ->
  map id probed = map id scanned /\
  map vttpath probed = map vttpath scanned /\
  map hits probed = map hits scanned /\
  hit_count probed = hit_count scanned /\
  Forall (fun v => fltb ftwenty (fps v) = true) probed /\
  (forall scandir read directory keywords,
      scanned = find_all_keywords scandir read directory keywords ->
      Forall (fun v => hits v <> []) probed /\
      (List.length probed <= hit_count probed)%nat).
Proof.
  intros Hd Hp.
  pose proof (download_done _ _ _ Hd) as H1.
  pose proof (read_result_fps_done _ _ _ _ Hp) as H2.
  assert (E1 : forall (B : Type) (f : Video -> B),
             (forall v p, f (replace_vidpath v p) = f v) ->
             map f downloaded = map f scanned).
  { intros B f Hf. eapply forall2_map_eq; [| exact H1].
    cbn beta. intros v u [-> _]. apply Hf. }
  assert (E2 : forall (B : Type) (f : Video -> B),
             (forall v r, f (replace_fps v r) = f v) ->
             map f probed = map f downloaded).
  { intros B f Hf. eapply forall2_map_eq; [| exact H2].
    cbn beta. intros v u [-> _]. apply Hf. }
  assert (Hhits : map hits probed = map hits scanned).
  { rewrite (E2 _ hits), (E1 _ hits); reflexivity. }
  split; [rewrite (E2 _ id), (E1 _ id); reflexivity |].
  split; [rewrite (E2 _ vttpath), (E1 _ vttpath); reflexivity |].
  split; [exact Hhits |].
  split; [now apply hit_count_hits |].
  split.
  - clear - H2. induction H2 as [|v u vs us [_ [_ Hr]] _ IH]; constructor;
      assumption.
  - intros scandir read directory keywords ->.
    assert (Hne : Forall (fun hs : list Keyword => hs <> [])
                    (map hits probed)).
    { rewrite Hhits. apply Forall_forall. intros hs Hin.
      apply in_map_iff in Hin. destruct Hin as [v [<- Hv]].
      unfold find_all_keywords in Hv. rewrite scan_entries_spec in Hv.
      cbn [app] in Hv. apply in_flat_map in Hv.
      destruct Hv as [entry [_ Hv]]. unfold record_of in Hv.
      destruct (find_keywords read (path entry) keywords); [contradiction |].
      destruct Hv as [<- | []]. discriminate. }
    split.
    + apply Forall_forall. intros v Hv.
      rewrite Forall_forall in Hne. apply Hne. now apply in_map.
    + rewrite hit_count_sum.
      rewrite <- (map_map hits (@List.length Keyword) probed).
      rewrite <- (List.length_map hits probed).
      now apply nonempty_lists_sum.
Qed.

Lemma X22_witness :
  map hits [video_abc_probed] = map hits [video_abc] /\
  hit_count [video_abc_probed] = hit_count [video_abc] /\
  Forall (fun v => hits v <> []) [video_abc_probed].
Proof.
  assert (Hd : download_keyword_videos download_to_videos [video_abc]
               = Done [video_abc_downloaded]) by reflexivity.
  assert (Hp : read_result_fps ffprobe_ntsc float_of_digits
                 [video_abc_downloaded] = Done [video_abc_probed])
    by (vm_compute; reflexivity).
  destruct (X22_stages_keep_hits _ _ _ _ _ _ Hd Hp)
    as [_ [_ [H3 [H4 [_ H6]]]]].
  split; [exact H3 |]. split; [exact H4 |].
  apply (H6 two_entries two_tracks "subs" ["cat"]).
  vm_compute. reflexivity.
Defined.

(** ** The result directory *)

Lemma str_split_from_not_nil (sep : string) (skip : nat) (s : string) :
  str_split_from sep skip s <> [].
Proof.
  revert skip. induction s as [|c s IH]; intros skip; [discriminate |].
  cbn [str_split_from]. destruct skip as [|k]; [| apply IH].
  destruct (PyStr.startswith sep (String c s)); [discriminate |].
  destruct (str_split_from sep 0 s); discriminate.
Qed.

Lemma str_split_skip (sep : string) (passed rest : string) :
  str_split_from sep (String.length passed) (passed ++ rest)
  = match passed with
    | EmptyString => str_split_from sep 0 rest
    | _ => str_split_from sep 0 rest
    end.
Proof.
  induction passed as [|c p IH]; [reflexivity |].
  cbn [String.length append str_split_from]. rewrite IH.
  destruct p; reflexivity.
Qed.

Lemma startswith_app (sep rest : string) :
  PyStr.startswith sep (sep ++ rest) = true.
Proof. apply startswith_iff. now exists rest. Qed.

(** At a separator the field ends and the scan resumes after it. *)
Lemma str_split_at_sep (sep rest : string) :
  sep <> "" ->
  str_split sep (sep ++ rest) = "" :: str_split sep rest.
Proof.
  intros Hs. destruct sep as [|c sep']; [contradiction |].
  unfold str_split. cbn [append]. cbn [str_split_from].
  change (String c (sep' ++ rest)) with (String c sep' ++ rest).
  rewrite startswith_app. cbn [String.length Nat.sub].
  rewrite Nat.sub_0_r, str_split_skip. destruct sep'; reflexivity.
Qed.

Lemma str_split_no_match (sep : string) (c : ascii) (s : string) :
  PyStr.startswith sep (String c s) = false ->
  str_split sep (String c s)
  = match str_split sep s with
    | l :: ls => String c l :: ls
    | [] => [String c ""]
    end.
Proof. intros H. unfold str_split. cbn [str_split_from]. now rewrite H. Qed.

(** [sep.join(s.split(sep)) == s] *)
Lemma join_str_split (sep s : string) :
  sep <> "" -> PyStr.join sep (str_split sep s) = s.
Proof.
  intros Hs.
  assert (H : forall n s, (String.length s <= n)%nat ->
                          PyStr.join sep (str_split sep s) = s).
  { clear s. induction n as [|n IH]; intros s Hn.
    - destruct s; [reflexivity | simpl in Hn; lia].
    - destruct s as [|c s]; [reflexivity |].
      destruct (PyStr.startswith sep (String c s)) eqn:E.
      + apply startswith_iff in E. destruct E as [rest E]. rewrite E.
        rewrite str_split_at_sep by exact Hs.
        rewrite join_cons by apply str_split_from_not_nil.
        rewrite IH; [reflexivity |].
        apply (f_equal String.length) in E. rewrite string_length_app in E.
        destruct sep; [contradiction |]. simpl in *. lia.
      + rewrite str_split_no_match by exact E.
        pose proof (str_split_from_not_nil sep 0 s) as Hn0.
        pose proof (IH s ltac:(simpl in Hn; lia)) as IHs.
        unfold str_split in *.
        destruct (str_split_from sep 0 s) as [|l ls]; [contradiction |].
        destruct ls as [|l' ls].
        * simpl in *. now rewrite IHs.
        * rewrite join_cons in IHs by discriminate.
          rewrite join_cons by discriminate. rewrite <- IHs. reflexivity. }
  apply (H (String.length s)). lia.
Qed.

Lemma str_split_none (sep s : string) :
  PyStr.contains sep s = false -> str_split sep s = [s].
Proof.
  induction s as [|c s IH]; [reflexivity |].
  cbn [PyStr.contains]. rewrite orb_false_iff. intros [H1 H2].
  rewrite str_split_no_match by exact H1. now rewrite (IH H2).
Qed.

(** Up to the first separator. *)
Lemma str_split_first (sep before rest : string) :
  sep <> "" ->
  (forall p1 p2, before = p1 ++ p2 -> p2 <> "" ->
                 PyStr.startswith sep (p2 ++ sep ++ rest) = false) ->
  str_split sep (before ++ sep ++ rest) = before :: str_split sep rest.
Proof.
  intros Hs. induction before as [|c b IH]; intros H.
  - cbn [append]. now apply str_split_at_sep.
  - cbn [append]. rewrite str_split_no_match.
    + rewrite IH; [reflexivity |].
      intros p1 p2 -> Hp. apply (H (String c p1) p2); [reflexivity | exact Hp].
    + apply (H "" (String c b)); [reflexivity | discriminate].
Qed.

Lemma contains_app_r (w a b : string) :
  PyStr.contains w (a ++ b) = false -> PyStr.contains w b = false.
Proof.
  induction a as [|c a IH]; [auto |].
  cbn [append PyStr.contains]. rewrite orb_false_iff. intros [_ H].
  now apply IH.
Qed.

Lemma replace_char_no_old (old new : ascii) (s : string) :
  old <> new ->
  PyStr.contains (String old "") (replace_char old new s) = false.
Proof.
  intros Hn. induction s as [|c s IH]; [reflexivity |].
  cbn [replace_char PyStr.contains PyStr.startswith]. rewrite IH.
  destruct (Ascii.eqb_spec c old) as [-> | Hc].
  - destruct (Ascii.eqb_spec old new); [contradiction | reflexivity].
  - destruct (Ascii.eqb_spec old c); [congruence | reflexivity].
Qed.

Lemma replace_char_length (old new : ascii) (s : string) :
  String.length (replace_char old new s) = String.length s.
Proof. induction s as [|c s IH]; simpl; [reflexivity | now rewrite IH]. Qed.

(** X23. When [url2dir] returns a directory name, the url holds one of the
    two domains followed by a slash, the name is what follows that slash
    with every slash replaced by an underscore, it holds no slash and has
    the length of what it was made from; the second domain is consulted
    only when the first does not occur in the url. *)
Theorem X23_url2dir_result (url dir : string) :
  url2dir url = Ok dir ->
  exists d before after,
    In d domains /\
    url = before ++ d ++ "/" ++ after /\
    dir = replace_char "/" "_" after /\
    PyStr.contains "/" dir = false /\
    String.length dir = String.length after /\
    (d = "youtu.be" -> PyStr.contains "youtube.com" url = false).
Proof.
  unfold url2dir, domains. cbn [url2dir_from].
  assert (Hcase : forall d,
             match str_split (d ++ "/") url with
             | [_; after] => Ok (replace_char "/" "_" after)
             | _ => Raise ValueError
             end = Ok dir ->
             exists before after,
               url = before ++ d ++ "/" ++ after /\
               dir = replace_char "/" "_" after /\
               PyStr.contains "/" dir = false /\
               String.length dir = String.length after).
  { intros d H.
    assert (Hsep : d ++ "/" <> "") by (destruct d; discriminate).
    pose proof (join_str_split (d ++ "/") url Hsep) as Hj.
    destruct (str_split (d ++ "/") url) as [|b [|a [|x rest]]];
      try discriminate.
    injection H as <-. exists b, a.
    split; [| split; [reflexivity | split]].
    - rewrite <- Hj. cbn [PyStr.join]. now rewrite !append_assoc.
    - apply replace_char_no_old. discriminate.
    - apply replace_char_length. }
  destruct (PyStr.contains "youtube.com" url) eqn:E1.
  - intros H. destruct (Hcase _ H) as [b [a [H1 [H2 [H3 H4]]]]].
    exists "youtube.com", b, a.
    split; [now left |]. repeat split; try assumption. discriminate.
  - destruct (PyStr.contains "youtu.be" url) eqn:E2; [| discriminate].
    intros H. destruct (Hcase _ H) as [b [a [H1 [H2 [H3 H4]]]]].
    exists "youtu.be", b, a.
    split; [right; now left |]. repeat split; assumption.
Qed.

Lemma X23_witness :
  exists d before after,
    In d domains /\
    "https://www.youtube.com/user/abc" = before ++ d ++ "/" ++ after /\
    "user_abc" = replace_char "/" "_" after /\
    PyStr.contains "/" "user_abc" = false /\
    String.length "user_abc" = String.length after /\
    (d = "youtu.be" ->
     PyStr.contains "youtube.com" "https://www.youtube.com/user/abc" = false).
Proof. apply X23_url2dir_result. reflexivity. Defined.

(** No proper shift of ["youtube.com/"] or of ["youtu.be/"] over itself
    matches: a separator that begins inside [p2] would begin with a whole
    domain inside [p2]. *)
Ltac border_char p2 :=
  destruct p2 as [|?c p2];
  [ reflexivity
  | cbn [append PyStr.startswith];
    match goal with
    | |- context [Ascii.eqb ?a ?c] =>
        destruct (Ascii.eqb_spec a c) as [<- | _];
        [cbn [andb] | reflexivity]
    end ].

Lemma border_youtube_com (p2 rest : string) :
  p2 <> "" -> PyStr.contains "youtube.com" p2 = false ->
  PyStr.startswith "youtube.com/" (p2 ++ "youtube.com/" ++ rest) = false.
Proof.
  intros Hne Hc.
  destruct p2 as [|c p2]; [contradiction |].
  cbn [append PyStr.startswith].
  destruct (Ascii.eqb_spec "y" c) as [<- | _]; [cbn [andb] | reflexivity].
  do 10 border_char p2.
  cbn [PyStr.contains PyStr.startswith] in Hc.
  rewrite !Ascii.eqb_refl in Hc. discriminate Hc.
Qed.

Lemma border_youtu_be (p2 rest : string) :
  p2 <> "" -> PyStr.contains "youtu.be" p2 = false ->
  PyStr.startswith "youtu.be/" (p2 ++ "youtu.be/" ++ rest) = false.
Proof.
  intros Hne Hc.
  destruct p2 as [|c p2]; [contradiction |].
  cbn [append PyStr.startswith].
  destruct (Ascii.eqb_spec "y" c) as [<- | _]; [cbn [andb] | reflexivity].
  do 7 border_char p2.
  cbn [PyStr.contains PyStr.startswith] in Hc.
  rewrite !Ascii.eqb_refl in Hc. discriminate Hc.
Qed.

Lemma in_domains_border (d p2 rest : string) :
  In d domains -> p2 <> "" -> PyStr.contains d p2 = false ->
  PyStr.startswith (d ++ "/") (p2 ++ (d ++ "/") ++ rest) = false.
Proof.
  intros [<- | [<- | []]].
  - apply border_youtube_com.
  - apply border_youtu_be.
Qed.

(** The field before the first occurrence of a domain and its slash. *)
Lemma str_split_domain (d before rest : string) :
  In d domains -> PyStr.contains d before = false ->
  str_split (d ++ "/") (before ++ (d ++ "/") ++ rest)
  = before :: str_split (d ++ "/") rest.
Proof.
  intros Hd Hc. apply str_split_first.
  - destruct d; discriminate.
  - intros p1 p2 -> Hp. apply in_domains_border; [exact Hd | exact Hp |].
    now apply contains_app_r in Hc.
Qed.

Lemma contains_middle (d before rest : string) :
  PyStr.contains d (before ++ (d ++ "/") ++ rest) = true.
Proof.
  apply contains_iff. exists before, ("/" ++ rest).
  now rewrite append_assoc.
Qed.

Lemma url2dir_from_first (d : string) (ds : list string) (url : string) :
  PyStr.contains d url = true ->
  url2dir_from (d :: ds) url
  = match str_split (d ++ "/") url with
    | [_; after] => Ok (replace_char "/" "_" after)
    | _ => Raise ValueError
    end.
Proof. intros H. cbn [url2dir_from]. now rewrite H. Qed.

(** X24. [url2dir] raises [ValueError] when neither domain occurs in the
    url; when the first domain that occurs is nowhere followed by a slash,
    whatever follows the other domain; and when that domain and its slash
    occur twice. *)
Theorem X24_url2dir_errors :
  (forall url,
      PyStr.contains "youtube.com" url = false ->
      PyStr.contains "youtu.be" url = false ->
      url2dir url = Raise ValueError) /\
  (forall url,
      PyStr.contains "youtube.com" url = true ->
      PyStr.contains "youtube.com/" url = false ->
      url2dir url = Raise ValueError) /\
  (forall url,
      PyStr.contains "youtube.com" url = false ->
      PyStr.contains "youtu.be" url = true ->
      PyStr.contains "youtu.be/" url = false ->
      url2dir url = Raise ValueError) /\
  (forall a b c,
      PyStr.contains "youtube.com" a = false ->
      PyStr.contains "youtube.com" b = false ->
      url2dir (a ++ "youtube.com/" ++ b ++ "youtube.com/" ++ c)
      = Raise ValueError).
Proof.
  unfold url2dir, domains. repeat split.
  - intros url H1 H2. cbn [url2dir_from]. now rewrite H1, H2.
  - intros url H1 H2. rewrite url2dir_from_first by exact H1.
    change ("youtube.com" ++ "/") with "youtube.com/".
    now rewrite (str_split_none _ _ H2).
  - intros url H1 H2 H3. cbn [url2dir_from]. rewrite H1, H2.
    change ("youtu.be" ++ "/") with "youtu.be/".
    now rewrite (str_split_none _ _ H3).
  - intros a b c Ha Hb.
    rewrite url2dir_from_first
      by apply (contains_middle "youtube.com" a (b ++ "youtube.com/" ++ c)).
    rewrite (str_split_domain "youtube.com" a) by (try exact Ha; now left).
    rewrite (str_split_domain "youtube.com" b) by (try exact Hb; now left).
    pose proof (str_split_from_not_nil ("youtube.com" ++ "/") 0 c) as Hn.
    unfold str_split at 1.
    destruct (str_split_from ("youtube.com" ++ "/") 0 c);
      [contradiction | reflexivity].
Qed.

Lemma X24_witness :
  url2dir "https://vimeo.com/123" = Raise ValueError /\
  url2dir "https://www.youtube.com?next=youtu.be/abc" = Raise ValueError /\
  url2dir "https://youtu.be?v=abc" = Raise ValueError /\
  url2dir ("https://www." ++ "youtube.com/" ++ "redirect?q=" ++
           "youtube.com/" ++ "user/abc") = Raise ValueError.
Proof.
  split; [| split; [| split]].
  - apply (proj1 X24_url2dir_errors); reflexivity.
  - apply (proj1 (proj2 X24_url2dir_errors)); reflexivity.
  - apply (proj1 (proj2 (proj2 X24_url2dir_errors))); reflexivity.
  - apply (proj2 (proj2 (proj2 X24_url2dir_errors))); reflexivity.
Defined.

(** X25. A url that holds ["youtube.com/"] once, with no ["youtube.com"]
    before it and no ["youtube.com/"] after it, gives what follows with
    the slashes replaced; so does a url without ["youtube.com"] that holds
    ["youtu.be/"] in the same way. *)
Theorem X25_url2dir_accepts :
  (forall before after,
      PyStr.contains "youtube.com" before = false ->
      PyStr.contains "youtube.com/" after = false ->
      url2dir (before ++ "youtube.com/" ++ after)
      = Ok (replace_char "/" "_" after)) /\
  (forall before after,
      PyStr.contains "youtube.com" (before ++ "youtu.be/" ++ after) = false ->
      PyStr.contains "youtu.be" before = false ->
      PyStr.contains "youtu.be/" after = false ->
      url2dir (before ++ "youtu.be/" ++ after)
      = Ok (replace_char "/" "_" after)).
Proof.
  unfold url2dir, domains. split.
  - intros before after Hb Ha.
    rewrite url2dir_from_first
      by apply (contains_middle "youtube.com" before after).
    rewrite (str_split_domain "youtube.com" before) by (try exact Hb; now left).
    change ("youtube.com" ++ "/") with "youtube.com/".
    now rewrite (str_split_none _ _ Ha).
  - intros before after H1 Hb Ha.
    pose proof (contains_middle "youtu.be" before after) as Hm.
    change ("youtu.be" ++ "/") with "youtu.be/" in Hm.
    cbn [url2dir_from]. rewrite H1, Hm.
    change ("youtu.be" ++ "/") with "youtu.be/".
    change "youtu.be/" with ("youtu.be" ++ "/") at 2.
    rewrite (str_split_domain "youtu.be" before)
      by (try exact Hb; right; now left).
    change ("youtu.be" ++ "/") with "youtu.be/".
    now rewrite (str_split_none _ _ Ha).
Qed.

Lemma X25_witness :
  url2dir ("https://www." ++ "youtube.com/" ++ "user/abc/videos")
  = Ok (replace_char "/" "_" "user/abc/videos") /\
  url2dir ("https://" ++ "youtu.be/" ++ "abc")
  = Ok (replace_char "/" "_" "abc").
Proof.
  split.
  - apply (proj1 X25_url2dir_accepts); reflexivity.
  - apply (proj2 X25_url2dir_accepts); reflexivity.
Defined.
